(** * BusinessSolutionManager: the in-memory store and the dashboard

    A shallow embedding of [server/storage.ts] (class [MemStorage]) and of
    the two route handlers of [server/routes.ts] that compute something
    (DELETE /api/documents/:id and GET /api/analytics/dashboard), with the
    properties the specification states about them.

    Conventions of the embedding.
    - A JavaScript [Map] is an insertion-ordered list of entries with
      pairwise distinct keys (module [JsMap]); [Array.from(m.values())]
      is the list of values in that order.
    - TypeScript's row types ([Client], [InsertClient],
      [Partial<InsertClient>], ...) are erased at run time to plain objects
      over the columns of [shared/schema.ts].  Each entity is one record
      whose every property is optional: [None] is an absent key (reads as
      [undefined]).  A nullable column holds [null] or a value.
    - Integer columns and the id counters are [Z] (JavaScript numbers are
      exact on integers below 2^53; the counters are not modelled beyond
      that).  Double-precision columns (prices, costs) are binary64 floats.
    - Every method of [MemStorage] is [async] but contains no [await]: its
      body runs to completion when called.  A method is a function from
      the store to its result and the store afterwards. *)

From Stdlib Require Import ZArith List Ascii String Bool Lia Sorted.
From Stdlib Require Import DecimalString DecimalPos DecimalZ.
From Stdlib Require Import Floats.PrimFloat.
Import ListNotations.

Local Open Scope string_scope.
Local Open Scope list_scope.
Local Open Scope Z_scope.

(** ** JavaScript [Map] *)

Module JsMap.

Section Operations.
Context {K V : Type}.
Variable eqb : K -> K -> bool.

Definition t := list (K * V).

Definition empty : t := [].

(** [m.get(k)]: the value stored under [k], if any. *)
Fixpoint get (k : K) (m : t) : option V :=
  match m with
  | [] => None
  | (k', v) :: rest => if eqb k k' then Some v else get k rest
  end.

(** [m.has(k)]. *)
Definition has (k : K) (m : t) : bool :=
  match get k m with Some _ => true | None => false end.

(** [m.set(k, v)]: an existing key keeps its place in the iteration
    order and gets the new value; a new key goes to the end. *)
Fixpoint set (k : K) (v : V) (m : t) : t :=
  match m with
  | [] => [(k, v)]
  | (k', v') :: rest =>
      if eqb k k' then (k', v) :: rest else (k', v') :: set k v rest
  end.

Fixpoint remove (k : K) (m : t) : t :=
  match m with
  | [] => []
  | (k', v') :: rest =>
      if eqb k k' then rest else (k', v') :: remove k rest
  end.

(** [m.delete(k)]: whether the key was there, and the map without it. *)
Definition delete (k : K) (m : t) : bool * t := (has k m, remove k m).

(** [Array.from(m.values())] and [Array.from(m.keys())]. *)
Definition values (m : t) : list V := map snd m.
Definition keys (m : t) : list K := map fst m.
End Operations.

Arguments t : clear implicits.


End JsMap.

(** ** Rows of [shared/schema.ts]

    One record per table.  [with_id o i] is the object literal
    [{ ...o, id: i }] and [spread o d] is [{ ...o, ...d }]: a property
    present in [d] wins, an absent one leaves [o]'s in place. *)

Inductive nullable (A : Type) : Type :=
| null
| notnull (a : A).
Arguments null {A}.
Arguments notnull {A} a.

Definition spread1 {A : Type} (old new : option A) : option A :=
  match new with
  | Some _ => new
  | None => old
  end.

Module User.
Record t := mk {
  id : option Z;
  username : option string;
  password : option string;
  employeeId : option (nullable Z)
}.
Definition with_id (o : t) (i : Z) : t :=
  mk (Some i) (username o) (password o) (employeeId o).
End User.

Module Client.
Record t := mk {
  id : option Z;
  name : option string;
  phone : option string;
  address : option (nullable string);
  clientType : option string
}.
Definition with_id (o : t) (i : Z) : t :=
  mk (Some i) (name o) (phone o) (address o) (clientType o).
Definition spread (o d : t) : t :=
  mk (spread1 (id o) (id d)) (spread1 (name o) (name d))
     (spread1 (phone o) (phone d)) (spread1 (address o) (address d))
     (spread1 (clientType o) (clientType d)).
End Client.

Module Service.
Record t := mk {
  id : option Z;
  name : option string;
  description : option (nullable string);
  frequency : option string;
  basePrice : option float
}.
Definition with_id (o : t) (i : Z) : t :=
  mk (Some i) (name o) (description o) (frequency o) (basePrice o).
Definition spread (o d : t) : t :=
  mk (spread1 (id o) (id d)) (spread1 (name o) (name d))
     (spread1 (description o) (description d))
     (spread1 (frequency o) (frequency d))
     (spread1 (basePrice o) (basePrice d)).
End Service.

Module Project.
Record t := mk {
  id : option Z;
  clientId : option Z;
  name : option string;
  dateRequested : option string;
  dateOfExecution : option (nullable string);
  description : option (nullable string);
  invoiceFile : option (nullable string);
  cost : option float;
  price : option float;
  duration : option (nullable string);
  status : option string
}.
Definition with_id (o : t) (i : Z) : t :=
  mk (Some i) (clientId o) (name o) (dateRequested o) (dateOfExecution o)
     (description o) (invoiceFile o) (cost o) (price o) (duration o)
     (status o).
Definition spread (o d : t) : t :=
  mk (spread1 (id o) (id d)) (spread1 (clientId o) (clientId d))
     (spread1 (name o) (name d))
     (spread1 (dateRequested o) (dateRequested d))
     (spread1 (dateOfExecution o) (dateOfExecution d))
     (spread1 (description o) (description d))
     (spread1 (invoiceFile o) (invoiceFile d))
     (spread1 (cost o) (cost d)) (spread1 (price o) (price d))
     (spread1 (duration o) (duration d)) (spread1 (status o) (status d)).
End Project.

Module ProjectDocument.
(** [uploadDate] is a [Date]; it is held as its time value. *)
Record t := mk {
  id : option Z;
  projectId : option Z;
  filename : option string;
  filepath : option string;
  uploadDate : option Z
}.
Definition with_id (o : t) (i : Z) : t :=
  mk (Some i) (projectId o) (filename o) (filepath o) (uploadDate o).
End ProjectDocument.

Module ClientService.
(** Both columns are required and there is no id. *)
Record t := mk {
  clientId : Z;
  serviceId : Z
}.
End ClientService.

Module NewClientContact.
Record t := mk {
  id : option Z;
  contactName : option string;
  phoneEmail : option string;
  contactedDate : option string;
  contactMethod : option string;
  responseType : option string;
  notes : option (nullable string);
  convertedToClient : option bool;
  convertedClientId : option (nullable Z)
}.
Definition with_id (o : t) (i : Z) : t :=
  mk (Some i) (contactName o) (phoneEmail o) (contactedDate o)
     (contactMethod o) (responseType o) (notes o) (convertedToClient o)
     (convertedClientId o).
Definition spread (o d : t) : t :=
  mk (spread1 (id o) (id d)) (spread1 (contactName o) (contactName d))
     (spread1 (phoneEmail o) (phoneEmail d))
     (spread1 (contactedDate o) (contactedDate d))
     (spread1 (contactMethod o) (contactMethod d))
     (spread1 (responseType o) (responseType d))
     (spread1 (notes o) (notes d))
     (spread1 (convertedToClient o) (convertedToClient d))
     (spread1 (convertedClientId o) (convertedClientId d)).
(** [{ ...o, convertedToClient: true, convertedClientId: clientId }] *)
Definition converted (o : t) (clientId : Z) : t :=
  mk (id o) (contactName o) (phoneEmail o) (contactedDate o)
     (contactMethod o) (responseType o) (notes o) (Some true)
     (Some (notnull clientId)).
End NewClientContact.

Module FollowUp.
Record t := mk {
  id : option Z;
  taskDescription : option string;
  clientId : option (nullable Z);
  relatedProjectId : option (nullable Z);
  assignedEmployeeId : option Z;
  dueDate : option string;
  status : option string;
  notes : option (nullable string);
  createdById : option Z
}.
Definition with_id (o : t) (i : Z) : t :=
  mk (Some i) (taskDescription o) (clientId o) (relatedProjectId o)
     (assignedEmployeeId o) (dueDate o) (status o) (notes o)
     (createdById o).
Definition spread (o d : t) : t :=
  mk (spread1 (id o) (id d))
     (spread1 (taskDescription o) (taskDescription d))
     (spread1 (clientId o) (clientId d))
     (spread1 (relatedProjectId o) (relatedProjectId d))
     (spread1 (assignedEmployeeId o) (assignedEmployeeId d))
     (spread1 (dueDate o) (dueDate d)) (spread1 (status o) (status d))
     (spread1 (notes o) (notes d))
     (spread1 (createdById o) (createdById d)).
End FollowUp.

Module Employee.
Record t := mk {
  id : option Z;
  name : option string;
  email : option string;
  role : option string;
  activeStatus : option bool
}.
Definition with_id (o : t) (i : Z) : t :=
  mk (Some i) (name o) (email o) (role o) (activeStatus o).
Definition spread (o d : t) : t :=
  mk (spread1 (id o) (id d)) (spread1 (name o) (name d))
     (spread1 (email o) (email d)) (spread1 (role o) (role d))
     (spread1 (activeStatus o) (activeStatus d)).
End Employee.

Module EmployeeClient.
Record t := mk {
  employeeId : Z;
  clientId : Z
}.
End EmployeeClient.

(** ** The store: class [MemStorage]

    The ten maps and the eight id counters of the class.  ([sessionStore],
    the session middleware's own store, takes no part in any method and is
    left out.) *)

Record MemStorage := {
  userStore : JsMap.t Z User.t;
  clientStore : JsMap.t Z Client.t;
  serviceStore : JsMap.t Z Service.t;
  projectStore : JsMap.t Z Project.t;
  projectDocumentStore : JsMap.t Z ProjectDocument.t;
  clientServiceStore : JsMap.t string ClientService.t;
  newClientContactStore : JsMap.t Z NewClientContact.t;
  followUpStore : JsMap.t Z FollowUp.t;
  employeeStore : JsMap.t Z Employee.t;
  employeeClientStore : JsMap.t string EmployeeClient.t;
  userId : Z;
  clientId : Z;
  serviceId : Z;
  projectId : Z;
  projectDocumentId : Z;
  newClientContactId : Z;
  followUpId : Z;
  employeeId : Z
}.

(** Assignment to one field, [this.f = v]. *)

Definition set_userStore (v : JsMap.t Z User.t) (this : MemStorage) : MemStorage :=
  Build_MemStorage v (clientStore this) (serviceStore this)
  (projectStore this) (projectDocumentStore this) (clientServiceStore this)
  (newClientContactStore this) (followUpStore this) (employeeStore this)
  (employeeClientStore this) (userId this) (clientId this) (serviceId this)
  (projectId this) (projectDocumentId this) (newClientContactId this)
  (followUpId this) (employeeId this).

Definition set_clientStore (v : JsMap.t Z Client.t) (this : MemStorage) : MemStorage :=
  Build_MemStorage (userStore this) v (serviceStore this)
  (projectStore this) (projectDocumentStore this) (clientServiceStore this)
  (newClientContactStore this) (followUpStore this) (employeeStore this)
  (employeeClientStore this) (userId this) (clientId this) (serviceId this)
  (projectId this) (projectDocumentId this) (newClientContactId this)
  (followUpId this) (employeeId this).

Definition set_serviceStore (v : JsMap.t Z Service.t) (this : MemStorage) : MemStorage :=
  Build_MemStorage (userStore this) (clientStore this) v
  (projectStore this) (projectDocumentStore this) (clientServiceStore this)
  (newClientContactStore this) (followUpStore this) (employeeStore this)
  (employeeClientStore this) (userId this) (clientId this) (serviceId this)
  (projectId this) (projectDocumentId this) (newClientContactId this)
  (followUpId this) (employeeId this).

Definition set_projectStore (v : JsMap.t Z Project.t) (this : MemStorage) : MemStorage :=
  Build_MemStorage (userStore this) (clientStore this) (serviceStore this)
  v (projectDocumentStore this) (clientServiceStore this)
  (newClientContactStore this) (followUpStore this) (employeeStore this)
  (employeeClientStore this) (userId this) (clientId this) (serviceId this)
  (projectId this) (projectDocumentId this) (newClientContactId this)
  (followUpId this) (employeeId this).

Definition set_projectDocumentStore (v : JsMap.t Z ProjectDocument.t) (this : MemStorage) : MemStorage :=
  Build_MemStorage (userStore this) (clientStore this) (serviceStore this)
  (projectStore this) v (clientServiceStore this)
  (newClientContactStore this) (followUpStore this) (employeeStore this)
  (employeeClientStore this) (userId this) (clientId this) (serviceId this)
  (projectId this) (projectDocumentId this) (newClientContactId this)
  (followUpId this) (employeeId this).

Definition set_clientServiceStore (v : JsMap.t string ClientService.t) (this : MemStorage) : MemStorage :=
  Build_MemStorage (userStore this) (clientStore this) (serviceStore this)
  (projectStore this) (projectDocumentStore this) v
  (newClientContactStore this) (followUpStore this) (employeeStore this)
  (employeeClientStore this) (userId this) (clientId this) (serviceId this)
  (projectId this) (projectDocumentId this) (newClientContactId this)
  (followUpId this) (employeeId this).

Definition set_newClientContactStore (v : JsMap.t Z NewClientContact.t) (this : MemStorage) : MemStorage :=
  Build_MemStorage (userStore this) (clientStore this) (serviceStore this)
  (projectStore this) (projectDocumentStore this) (clientServiceStore this)
  v (followUpStore this) (employeeStore this) (employeeClientStore this)
  (userId this) (clientId this) (serviceId this) (projectId this)
  (projectDocumentId this) (newClientContactId this) (followUpId this)
  (employeeId this).

Definition set_followUpStore (v : JsMap.t Z FollowUp.t) (this : MemStorage) : MemStorage :=
  Build_MemStorage (userStore this) (clientStore this) (serviceStore this)
  (projectStore this) (projectDocumentStore this) (clientServiceStore this)
  (newClientContactStore this) v (employeeStore this)
  (employeeClientStore this) (userId this) (clientId this) (serviceId this)
  (projectId this) (projectDocumentId this) (newClientContactId this)
  (followUpId this) (employeeId this).

Definition set_employeeStore (v : JsMap.t Z Employee.t) (this : MemStorage) : MemStorage :=
  Build_MemStorage (userStore this) (clientStore this) (serviceStore this)
  (projectStore this) (projectDocumentStore this) (clientServiceStore this)
  (newClientContactStore this) (followUpStore this) v
  (employeeClientStore this) (userId this) (clientId this) (serviceId this)
  (projectId this) (projectDocumentId this) (newClientContactId this)
  (followUpId this) (employeeId this).

Definition set_employeeClientStore (v : JsMap.t string EmployeeClient.t) (this : MemStorage) : MemStorage :=
  Build_MemStorage (userStore this) (clientStore this) (serviceStore this)
  (projectStore this) (projectDocumentStore this) (clientServiceStore this)
  (newClientContactStore this) (followUpStore this) (employeeStore this) v
  (userId this) (clientId this) (serviceId this) (projectId this)
  (projectDocumentId this) (newClientContactId this) (followUpId this)
  (employeeId this).

Definition set_userId (v : Z) (this : MemStorage) : MemStorage :=
  Build_MemStorage (userStore this) (clientStore this) (serviceStore this)
  (projectStore this) (projectDocumentStore this) (clientServiceStore this)
  (newClientContactStore this) (followUpStore this) (employeeStore this)
  (employeeClientStore this) v (clientId this) (serviceId this)
  (projectId this) (projectDocumentId this) (newClientContactId this)
  (followUpId this) (employeeId this).

Definition set_clientId (v : Z) (this : MemStorage) : MemStorage :=
  Build_MemStorage (userStore this) (clientStore this) (serviceStore this)
  (projectStore this) (projectDocumentStore this) (clientServiceStore this)
  (newClientContactStore this) (followUpStore this) (employeeStore this)
  (employeeClientStore this) (userId this) v (serviceId this)
  (projectId this) (projectDocumentId this) (newClientContactId this)
  (followUpId this) (employeeId this).

Definition set_serviceId (v : Z) (this : MemStorage) : MemStorage :=
  Build_MemStorage (userStore this) (clientStore this) (serviceStore this)
  (projectStore this) (projectDocumentStore this) (clientServiceStore this)
  (newClientContactStore this) (followUpStore this) (employeeStore this)
  (employeeClientStore this) (userId this) (clientId this) v
  (projectId this) (projectDocumentId this) (newClientContactId this)
  (followUpId this) (employeeId this).

Definition set_projectId (v : Z) (this : MemStorage) : MemStorage :=
  Build_MemStorage (userStore this) (clientStore this) (serviceStore this)
  (projectStore this) (projectDocumentStore this) (clientServiceStore this)
  (newClientContactStore this) (followUpStore this) (employeeStore this)
  (employeeClientStore this) (userId this) (clientId this) (serviceId this)
  v (projectDocumentId this) (newClientContactId this) (followUpId this)
  (employeeId this).

Definition set_projectDocumentId (v : Z) (this : MemStorage) : MemStorage :=
  Build_MemStorage (userStore this) (clientStore this) (serviceStore this)
  (projectStore this) (projectDocumentStore this) (clientServiceStore this)
  (newClientContactStore this) (followUpStore this) (employeeStore this)
  (employeeClientStore this) (userId this) (clientId this) (serviceId this)
  (projectId this) v (newClientContactId this) (followUpId this)
  (employeeId this).

Definition set_newClientContactId (v : Z) (this : MemStorage) : MemStorage :=
  Build_MemStorage (userStore this) (clientStore this) (serviceStore this)
  (projectStore this) (projectDocumentStore this) (clientServiceStore this)
  (newClientContactStore this) (followUpStore this) (employeeStore this)
  (employeeClientStore this) (userId this) (clientId this) (serviceId this)
  (projectId this) (projectDocumentId this) v (followUpId this)
  (employeeId this).

Definition set_followUpId (v : Z) (this : MemStorage) : MemStorage :=
  Build_MemStorage (userStore this) (clientStore this) (serviceStore this)
  (projectStore this) (projectDocumentStore this) (clientServiceStore this)
  (newClientContactStore this) (followUpStore this) (employeeStore this)
  (employeeClientStore this) (userId this) (clientId this) (serviceId this)
  (projectId this) (projectDocumentId this) (newClientContactId this) v
  (employeeId this).

Definition set_employeeId (v : Z) (this : MemStorage) : MemStorage :=
  Build_MemStorage (userStore this) (clientStore this) (serviceStore this)
  (projectStore this) (projectDocumentStore this) (clientServiceStore this)
  (newClientContactStore this) (followUpStore this) (employeeStore this)
  (employeeClientStore this) (userId this) (clientId this) (serviceId this)
  (projectId this) (projectDocumentId this) (newClientContactId this)
  (followUpId this) v.

(** ** Strict equality against a property that may be absent or null *)

Definition eq_Z (x : option Z) (y : Z) : bool :=
  match x with
  | Some n => Z.eqb n y
  | None => false
  end.

Definition eq_nullable_Z (x : option (nullable Z)) (y : Z) : bool :=
  match x with
  | Some (notnull n) => Z.eqb n y
  | _ => false
  end.

Definition eq_string (x : option string) (y : string) : bool :=
  match x with
  | Some s => String.eqb s y
  | None => false
  end.

(** [ids.includes(x)] *)
Definition includes (ids : list Z) (x : option Z) : bool :=
  existsb (eq_Z x) ids.

(** [String(n)] on an integer: its decimal numeral.  This is what
    JavaScript prints for the integers it holds exactly (magnitude below
    2^53); a larger number prints rounded, and from 1e21 on in exponent
    form, which is not modelled. *)
Definition Number_toString (n : Z) : string :=
  NilZero.string_of_int (Z.to_int n).

(** ** The methods of [MemStorage] *)

Definition getUser (id : Z) (this : MemStorage) : option User.t :=
  JsMap.get Z.eqb id (userStore this).

Definition getUserByUsername (username : string) (this : MemStorage)
  : option User.t :=
  find (fun user => eq_string (User.username user) username)
       (JsMap.values (userStore this)).

Definition createUser (user : User.t) (this : MemStorage)
  : User.t * MemStorage :=
  let id := userId this in
  let this := set_userId (id + 1) this in
  let newUser := User.with_id user id in
  (newUser, set_userStore (JsMap.set Z.eqb id newUser (userStore this)) this).

Definition getClients (this : MemStorage) : list Client.t :=
  JsMap.values (clientStore this).

Definition getClient (id : Z) (this : MemStorage) : option Client.t :=
  JsMap.get Z.eqb id (clientStore this).

Definition createClient (client : Client.t) (this : MemStorage)
  : Client.t * MemStorage :=
  let id := clientId this in
  let this := set_clientId (id + 1) this in
  let newClient := Client.with_id client id in
  (newClient,
   set_clientStore (JsMap.set Z.eqb id newClient (clientStore this)) this).

Definition updateClient (id : Z) (clientData : Client.t) (this : MemStorage)
  : option Client.t * MemStorage :=
  match JsMap.get Z.eqb id (clientStore this) with
  | None => (None, this)
  | Some client =>
      let updatedClient := Client.spread client clientData in
      (Some updatedClient,
       set_clientStore (JsMap.set Z.eqb id updatedClient (clientStore this)) this)
  end.

Definition deleteClient (id : Z) (this : MemStorage) : bool * MemStorage :=
  let (found, store) := JsMap.delete Z.eqb id (clientStore this) in
  (found, set_clientStore store this).

Definition getClientsAssignedToEmployee (employeeId : Z) (this : MemStorage)
  : list Z :=
  map EmployeeClient.clientId
      (filter (fun ec => Z.eqb (EmployeeClient.employeeId ec) employeeId)
              (JsMap.values (employeeClientStore this))).

Definition getClientsByEmployee (employeeId : Z) (this : MemStorage)
  : list Client.t :=
  let assignedClientIds :=
    map EmployeeClient.clientId
        (filter (fun ec => Z.eqb (EmployeeClient.employeeId ec) employeeId)
                (JsMap.values (employeeClientStore this))) in
  filter (fun client => includes assignedClientIds (Client.id client))
         (JsMap.values (clientStore this)).

Definition getServices (this : MemStorage) : list Service.t :=
  JsMap.values (serviceStore this).

Definition getService (id : Z) (this : MemStorage) : option Service.t :=
  JsMap.get Z.eqb id (serviceStore this).

Definition createService (service : Service.t) (this : MemStorage)
  : Service.t * MemStorage :=
  let id := serviceId this in
  let this := set_serviceId (id + 1) this in
  let newService := Service.with_id service id in
  (newService,
   set_serviceStore (JsMap.set Z.eqb id newService (serviceStore this)) this).

Definition updateService (id : Z) (serviceData : Service.t) (this : MemStorage)
  : option Service.t * MemStorage :=
  match JsMap.get Z.eqb id (serviceStore this) with
  | None => (None, this)
  | Some service =>
      let updatedService := Service.spread service serviceData in
      (Some updatedService,
       set_serviceStore (JsMap.set Z.eqb id updatedService (serviceStore this)) this)
  end.

Definition deleteService (id : Z) (this : MemStorage) : bool * MemStorage :=
  let (found, store) := JsMap.delete Z.eqb id (serviceStore this) in
  (found, set_serviceStore store this).

Definition getServicesByClient (clientId : Z) (this : MemStorage)
  : list Service.t :=
  let serviceIds :=
    map ClientService.serviceId
        (filter (fun cs => Z.eqb (ClientService.clientId cs) clientId)
                (JsMap.values (clientServiceStore this))) in
  filter (fun service => includes serviceIds (Service.id service))
         (JsMap.values (serviceStore this)).

Definition getProjects (this : MemStorage) : list Project.t :=
  JsMap.values (projectStore this).

Definition getProject (id : Z) (this : MemStorage) : option Project.t :=
  JsMap.get Z.eqb id (projectStore this).

Definition createProject (project : Project.t) (this : MemStorage)
  : Project.t * MemStorage :=
  let id := projectId this in
  let this := set_projectId (id + 1) this in
  let newProject := Project.with_id project id in
  (newProject,
   set_projectStore (JsMap.set Z.eqb id newProject (projectStore this)) this).

Definition updateProject (id : Z) (projectData : Project.t) (this : MemStorage)
  : option Project.t * MemStorage :=
  match JsMap.get Z.eqb id (projectStore this) with
  | None => (None, this)
  | Some project =>
      let updatedProject := Project.spread project projectData in
      (Some updatedProject,
       set_projectStore (JsMap.set Z.eqb id updatedProject (projectStore this)) this)
  end.

Definition deleteProject (id : Z) (this : MemStorage) : bool * MemStorage :=
  let (found, store) := JsMap.delete Z.eqb id (projectStore this) in
  (found, set_projectStore store this).

Definition getProjectsByClient (clientId : Z) (this : MemStorage)
  : list Project.t :=
  filter (fun project => eq_Z (Project.clientId project) clientId)
         (JsMap.values (projectStore this)).

Definition getProjectsByStatus (status : string) (this : MemStorage)
  : list Project.t :=
  filter (fun project => eq_string (Project.status project) status)
         (JsMap.values (projectStore this)).

Definition getProjectDocuments (projectId : Z) (this : MemStorage)
  : list ProjectDocument.t :=
  filter (fun doc => eq_Z (ProjectDocument.projectId doc) projectId)
         (JsMap.values (projectDocumentStore this)).

Definition createProjectDocument (document : ProjectDocument.t)
  (this : MemStorage) : ProjectDocument.t * MemStorage :=
  let id := projectDocumentId this in
  let this := set_projectDocumentId (id + 1) this in
  let newDocument := ProjectDocument.with_id document id in
  (newDocument,
   set_projectDocumentStore
     (JsMap.set Z.eqb id newDocument (projectDocumentStore this)) this).

Definition deleteProjectDocument (id : Z) (this : MemStorage)
  : bool * MemStorage :=
  let (found, store) := JsMap.delete Z.eqb id (projectDocumentStore this) in
  (found, set_projectDocumentStore store this).

Definition getClientServices (clientId : Z) (this : MemStorage)
  : list ClientService.t :=
  filter (fun cs => Z.eqb (ClientService.clientId cs) clientId)
         (JsMap.values (clientServiceStore this)).

(** The composite key [`${a}-${b}`]. *)
Definition pair_key (a b : Z) : string :=
  Number_toString a ++ "-" ++ Number_toString b.

Definition addServiceToClient (clientService : ClientService.t)
  (this : MemStorage) : ClientService.t * MemStorage :=
  let key := pair_key (ClientService.clientId clientService)
                      (ClientService.serviceId clientService) in
  (clientService,
   set_clientServiceStore
     (JsMap.set String.eqb key clientService (clientServiceStore this)) this).

Definition removeServiceFromClient (clientId serviceId : Z)
  (this : MemStorage) : bool * MemStorage :=
  let key := pair_key clientId serviceId in
  let (found, store) :=
    JsMap.delete String.eqb key (clientServiceStore this) in
  (found, set_clientServiceStore store this).

Definition getNewClientContacts (this : MemStorage) : list NewClientContact.t :=
  JsMap.values (newClientContactStore this).

Definition getNewClientContact (id : Z) (this : MemStorage) : option NewClientContact.t :=
  JsMap.get Z.eqb id (newClientContactStore this).

Definition createNewClientContact (contact : NewClientContact.t) (this : MemStorage)
  : NewClientContact.t * MemStorage :=
  let id := newClientContactId this in
  let this := set_newClientContactId (id + 1) this in
  let newContact := NewClientContact.with_id contact id in
  (newContact,
   set_newClientContactStore (JsMap.set Z.eqb id newContact (newClientContactStore this)) this).

Definition updateNewClientContact (id : Z) (contactData : NewClientContact.t) (this : MemStorage)
  : option NewClientContact.t * MemStorage :=
  match JsMap.get Z.eqb id (newClientContactStore this) with
  | None => (None, this)
  | Some contact =>
      let updatedContact := NewClientContact.spread contact contactData in
      (Some updatedContact,
       set_newClientContactStore (JsMap.set Z.eqb id updatedContact (newClientContactStore this)) this)
  end.

Definition deleteNewClientContact (id : Z) (this : MemStorage) : bool * MemStorage :=
  let (found, store) := JsMap.delete Z.eqb id (newClientContactStore this) in
  (found, set_newClientContactStore store this).

Definition convertContactToClient (contactId clientId : Z)
  (this : MemStorage) : bool * MemStorage :=
  match JsMap.get Z.eqb contactId (newClientContactStore this) with
  | None => (false, this)
  | Some contact =>
      let updatedContact := NewClientContact.converted contact clientId in
      (true,
       set_newClientContactStore
         (JsMap.set Z.eqb contactId updatedContact
                    (newClientContactStore this)) this)
  end.

Definition getFollowUps (this : MemStorage) : list FollowUp.t :=
  JsMap.values (followUpStore this).

Definition getFollowUp (id : Z) (this : MemStorage) : option FollowUp.t :=
  JsMap.get Z.eqb id (followUpStore this).

Definition createFollowUp (followUp : FollowUp.t) (this : MemStorage)
  : FollowUp.t * MemStorage :=
  let id := followUpId this in
  let this := set_followUpId (id + 1) this in
  let newFollowUp := FollowUp.with_id followUp id in
  (newFollowUp,
   set_followUpStore (JsMap.set Z.eqb id newFollowUp (followUpStore this)) this).

Definition updateFollowUp (id : Z) (followUpData : FollowUp.t) (this : MemStorage)
  : option FollowUp.t * MemStorage :=
  match JsMap.get Z.eqb id (followUpStore this) with
  | None => (None, this)
  | Some followUp =>
      let updatedFollowUp := FollowUp.spread followUp followUpData in
      (Some updatedFollowUp,
       set_followUpStore (JsMap.set Z.eqb id updatedFollowUp (followUpStore this)) this)
  end.

Definition deleteFollowUp (id : Z) (this : MemStorage) : bool * MemStorage :=
  let (found, store) := JsMap.delete Z.eqb id (followUpStore this) in
  (found, set_followUpStore store this).

Definition getFollowUpsByClient (clientId : Z) (this : MemStorage)
  : list FollowUp.t :=
  filter (fun followUp => eq_nullable_Z (FollowUp.clientId followUp) clientId)
         (JsMap.values (followUpStore this)).

Definition getFollowUpsByEmployee (employeeId : Z) (this : MemStorage)
  : list FollowUp.t :=
  filter (fun followUp =>
            eq_Z (FollowUp.assignedEmployeeId followUp) employeeId)
         (JsMap.values (followUpStore this)).

Definition getFollowUpsByStatus (status : string) (this : MemStorage)
  : list FollowUp.t :=
  filter (fun followUp => eq_string (FollowUp.status followUp) status)
         (JsMap.values (followUpStore this)).

Definition getEmployees (this : MemStorage) : list Employee.t :=
  JsMap.values (employeeStore this).

Definition getEmployee (id : Z) (this : MemStorage) : option Employee.t :=
  JsMap.get Z.eqb id (employeeStore this).

Definition createEmployee (employee : Employee.t) (this : MemStorage)
  : Employee.t * MemStorage :=
  let id := employeeId this in
  let this := set_employeeId (id + 1) this in
  let newEmployee := Employee.with_id employee id in
  (newEmployee,
   set_employeeStore (JsMap.set Z.eqb id newEmployee (employeeStore this)) this).

Definition updateEmployee (id : Z) (employeeData : Employee.t) (this : MemStorage)
  : option Employee.t * MemStorage :=
  match JsMap.get Z.eqb id (employeeStore this) with
  | None => (None, this)
  | Some employee =>
      let updatedEmployee := Employee.spread employee employeeData in
      (Some updatedEmployee,
       set_employeeStore (JsMap.set Z.eqb id updatedEmployee (employeeStore this)) this)
  end.

Definition deleteEmployee (id : Z) (this : MemStorage) : bool * MemStorage :=
  let (found, store) := JsMap.delete Z.eqb id (employeeStore this) in
  (found, set_employeeStore store this).

Definition getEmployeesByRole (role : string) (this : MemStorage)
  : list Employee.t :=
  filter (fun employee => eq_string (Employee.role employee) role)
         (JsMap.values (employeeStore this)).

Definition assignClientToEmployee (employeeClient : EmployeeClient.t)
  (this : MemStorage) : EmployeeClient.t * MemStorage :=
  let key := pair_key (EmployeeClient.employeeId employeeClient)
                      (EmployeeClient.clientId employeeClient) in
  (employeeClient,
   set_employeeClientStore
     (JsMap.set String.eqb key employeeClient (employeeClientStore this))
     this).

Definition unassignClientFromEmployee (employeeId clientId : Z)
  (this : MemStorage) : bool * MemStorage :=
  let key := pair_key employeeId clientId in
  let (found, store) :=
    JsMap.delete String.eqb key (employeeClientStore this) in
  (found, set_employeeClientStore store this).

(** ** Construction

    [new MemStorage()]: the field initialisers, then [seedInitialData],
    which creates the default manager and the admin user through the
    store's own [createEmployee] and [createUser]. *)

Definition initial_fields : MemStorage := {|
  userStore := JsMap.empty;
  clientStore := JsMap.empty;
  serviceStore := JsMap.empty;
  projectStore := JsMap.empty;
  projectDocumentStore := JsMap.empty;
  clientServiceStore := JsMap.empty;
  newClientContactStore := JsMap.empty;
  followUpStore := JsMap.empty;
  employeeStore := JsMap.empty;
  employeeClientStore := JsMap.empty;
  userId := 1;
  clientId := 1;
  serviceId := 1;
  projectId := 1;
  projectDocumentId := 1;
  newClientContactId := 1;
  followUpId := 1;
  employeeId := 1
|}.

Definition seed_employee : Employee.t := {|
  Employee.id := None;
  Employee.name := Some "John Doe";
  Employee.email := Some "john@example.com";
  Employee.role := Some "Manager";
  Employee.activeStatus := Some true
|}.

Definition seed_user : User.t := {|
  User.id := None;
  User.username := Some "admin";
  User.password := Some "password";
  User.employeeId := Some (notnull 1)
|}.

Definition seedInitialData (this : MemStorage) : MemStorage :=
  let this := snd (createEmployee seed_employee this) in
  snd (createUser seed_user this).

Definition new_MemStorage : MemStorage := seedInitialData initial_fields.

(** [export const storage = new MemStorage()] *)
Definition storage : MemStorage := new_MemStorage.

(** ** Calls that change the store

    The mutating methods of interface [IStorage], as data, so that
    histories of calls can be quantified over.  The remaining methods
    ([get...]) read the store and return no new one. *)

Inductive call : Type :=
| CreateUser (user : User.t)
| CreateClient (client : Client.t)
| UpdateClient (id : Z) (clientData : Client.t)
| DeleteClient (id : Z)
| CreateService (service : Service.t)
| UpdateService (id : Z) (serviceData : Service.t)
| DeleteService (id : Z)
| CreateProject (project : Project.t)
| UpdateProject (id : Z) (projectData : Project.t)
| DeleteProject (id : Z)
| CreateProjectDocument (document : ProjectDocument.t)
| DeleteProjectDocument (id : Z)
| AddServiceToClient (clientService : ClientService.t)
| RemoveServiceFromClient (clientId serviceId : Z)
| CreateNewClientContact (contact : NewClientContact.t)
| UpdateNewClientContact (id : Z) (contactData : NewClientContact.t)
| DeleteNewClientContact (id : Z)
| ConvertContactToClient (contactId clientId : Z)
| CreateFollowUp (followUp : FollowUp.t)
| UpdateFollowUp (id : Z) (followUpData : FollowUp.t)
| DeleteFollowUp (id : Z)
| CreateEmployee (employee : Employee.t)
| UpdateEmployee (id : Z) (employeeData : Employee.t)
| DeleteEmployee (id : Z)
| AssignClientToEmployee (employeeClient : EmployeeClient.t)
| UnassignClientFromEmployee (employeeId clientId : Z).

(** The store after a call. *)
Definition exec (c : call) (this : MemStorage) : MemStorage :=
  match c with
  | CreateUser u => snd (createUser u this)
  | CreateClient x => snd (createClient x this)
  | UpdateClient id d => snd (updateClient id d this)
  | DeleteClient id => snd (deleteClient id this)
  | CreateService x => snd (createService x this)
  | UpdateService id d => snd (updateService id d this)
  | DeleteService id => snd (deleteService id this)
  | CreateProject x => snd (createProject x this)
  | UpdateProject id d => snd (updateProject id d this)
  | DeleteProject id => snd (deleteProject id this)
  | CreateProjectDocument x => snd (createProjectDocument x this)
  | DeleteProjectDocument id => snd (deleteProjectDocument id this)
  | AddServiceToClient cs => snd (addServiceToClient cs this)
  | RemoveServiceFromClient c s => snd (removeServiceFromClient c s this)
  | CreateNewClientContact x => snd (createNewClientContact x this)
  | UpdateNewClientContact id d => snd (updateNewClientContact id d this)
  | DeleteNewClientContact id => snd (deleteNewClientContact id this)
  | ConvertContactToClient k c => snd (convertContactToClient k c this)
  | CreateFollowUp x => snd (createFollowUp x this)
  | UpdateFollowUp id d => snd (updateFollowUp id d this)
  | DeleteFollowUp id => snd (deleteFollowUp id this)
  | CreateEmployee x => snd (createEmployee x this)
  | UpdateEmployee id d => snd (updateEmployee id d this)
  | DeleteEmployee id => snd (deleteEmployee id this)
  | AssignClientToEmployee ec => snd (assignClientToEmployee ec this)
  | UnassignClientFromEmployee e c =>
      snd (unassignClientFromEmployee e c this)
  end.

(** The store after a history of calls, oldest first. *)
Definition run (calls : list call) (this : MemStorage) : MemStorage :=
  fold_left (fun s c => exec c s) calls this.

(** The states a running server can be in: those the constructed store
    reaches through calls of its methods. *)
Inductive reachable : MemStorage -> Prop :=
| reachable_new : reachable new_MemStorage
| reachable_exec (c : call) (s : MemStorage) :
    reachable s -> reachable (exec c s).

(** ** Entity types, generically

    The eight id-keyed tables, to state a property once for all of them:
    the keys of a table, its counter, and the [id] property of the record
    stored under a key. *)

Inductive entity : Type :=
| EUser | EClient | EService | EProject | EProjectDocument
| ENewClientContact | EFollowUp | EEmployee.

Definition keys_of (e : entity) (this : MemStorage) : list Z :=
  match e with
  | EUser => JsMap.keys (userStore this)
  | EClient => JsMap.keys (clientStore this)
  | EService => JsMap.keys (serviceStore this)
  | EProject => JsMap.keys (projectStore this)
  | EProjectDocument => JsMap.keys (projectDocumentStore this)
  | ENewClientContact => JsMap.keys (newClientContactStore this)
  | EFollowUp => JsMap.keys (followUpStore this)
  | EEmployee => JsMap.keys (employeeStore this)
  end.

Definition counter_of (e : entity) (this : MemStorage) : Z :=
  match e with
  | EUser => userId this
  | EClient => clientId this
  | EService => serviceId this
  | EProject => projectId this
  | EProjectDocument => projectDocumentId this
  | ENewClientContact => newClientContactId this
  | EFollowUp => followUpId this
  | EEmployee => employeeId this
  end.

(** The [id] property of each stored record, next to the key it is stored
    under. *)
Definition id_fields (e : entity) (this : MemStorage)
  : list (Z * option Z) :=
  match e with
  | EUser => map (fun kv => (fst kv, User.id (snd kv))) (userStore this)
  | EClient => map (fun kv => (fst kv, Client.id (snd kv))) (clientStore this)
  | EService =>
      map (fun kv => (fst kv, Service.id (snd kv))) (serviceStore this)
  | EProject =>
      map (fun kv => (fst kv, Project.id (snd kv))) (projectStore this)
  | EProjectDocument =>
      map (fun kv => (fst kv, ProjectDocument.id (snd kv)))
          (projectDocumentStore this)
  | ENewClientContact =>
      map (fun kv => (fst kv, NewClientContact.id (snd kv)))
          (newClientContactStore this)
  | EFollowUp =>
      map (fun kv => (fst kv, FollowUp.id (snd kv))) (followUpStore this)
  | EEmployee =>
      map (fun kv => (fst kv, Employee.id (snd kv))) (employeeStore this)
  end.

(** The id a call assigns: for a create, the table and the [id] of the
    record it returns. *)
Definition assigned (c : call) (this : MemStorage) : option (entity * option Z) :=
  match c with
  | CreateUser u => Some (EUser, User.id (fst (createUser u this)))
  | CreateClient x => Some (EClient, Client.id (fst (createClient x this)))
  | CreateService x =>
      Some (EService, Service.id (fst (createService x this)))
  | CreateProject x =>
      Some (EProject, Project.id (fst (createProject x this)))
  | CreateProjectDocument x =>
      Some (EProjectDocument,
            ProjectDocument.id (fst (createProjectDocument x this)))
  | CreateNewClientContact x =>
      Some (ENewClientContact,
            NewClientContact.id (fst (createNewClientContact x this)))
  | CreateFollowUp x =>
      Some (EFollowUp, FollowUp.id (fst (createFollowUp x this)))
  | CreateEmployee x =>
      Some (EEmployee, Employee.id (fst (createEmployee x this)))
  | _ => None
  end.



(** The two creations the constructor performs. *)
Definition seed_calls : list call :=
  [CreateEmployee seed_employee; CreateUser seed_user].

(** ** Route handlers of [server/routes.ts]

    A handler takes what it reads from the request (whether the session
    is authenticated, the parsed path parameter) and the store, and gives
    the response and the store afterwards.  Nothing in the two handlers
    below can throw, so their [catch] branches (status 500) are never
    taken. *)

Record DashboardBody := {
  totalClients : nat;
  activeProjects : nat;
  pendingFollowUps : nat;
  overdueFollowUps : nat;
  totalRevenue : float
}.

Inductive Json : Type :=
| Message (message : string)
| Analytics (body : DashboardBody)
| NoContent.

Record Response := {
  statusCode : Z;
  json : Json
}.

Definition unauthorized : Response := {|
  statusCode := 401;
  json := Message "Unauthorized"
|}.

(** DELETE /api/documents/:id.  [id] is [parseInt(req.params.id)].  The
    third component lists the paths handed to [unlink]; a failing
    [unlink] is caught and logged and changes nothing else. *)
Definition DELETE_api_documents (isAuthenticated : bool) (id : Z)
  (storage : MemStorage) : Response * MemStorage * list string :=
  if negb isAuthenticated then (unauthorized, storage, [])
  else
    let documents := getProjectDocuments 0 storage in
    match find (fun doc => eq_Z (ProjectDocument.id doc) id) documents with
    | None =>
        ({| statusCode := 404; json := Message "Document not found" |},
         storage, [])
    | Some document =>
        let unlinked :=
          match ProjectDocument.filepath document with
          | Some path => [path]
          | None => []
          end in
        let (success, storage) := deleteProjectDocument id storage in
        ({| statusCode := 204; json := NoContent |}, storage, unlinked)
    end.

Section Dashboard.
(** [new Date(s).getTime()] for a string [s]; [None] is an invalid date,
    whose time value is NaN.  How a date string is read is the
    runtime's business and is left open. *)
Variable Date_parse : string -> option Z.

(** [new Date(x)] for a property that may be absent:
    [new Date(undefined)] is an invalid date. *)
Definition new_Date (x : option string) : option Z :=
  match x with
  | Some s => Date_parse s
  | None => None
  end.

(** [a < b] on dates compares time values; with NaN it is false. *)
Definition Date_lt (a : option Z) (b : Z) : bool :=
  match a with
  | Some ta => Z.ltb ta b
  | None => false
  end.

(** [sum + project.price]; an absent price is [undefined], which adds
    as NaN. *)
Definition add_price (sum : float) (project : Project.t) : float :=
  PrimFloat.add sum
    match Project.price project with
    | Some price => price
    | None => PrimFloat.nan
    end.

(** The filter that selects the overdue follow-ups.  Its callback reads
    the system clock ([new Date()]) once for every follow-up that is
    pending, so the clock is a sequence of readings: [clock n] is the
    time at the reading number [n] of this request. *)
Fixpoint overdue (clock : nat -> Z) (reads : nat)
  (followUps : list FollowUp.t) : list FollowUp.t :=
  match followUps with
  | [] => []
  | f :: rest =>
      if negb (eq_string (FollowUp.status f) "Pending")
      then overdue clock reads rest
      else
        let dueDate := new_Date (FollowUp.dueDate f) in
        if Date_lt dueDate (clock reads)
        then f :: overdue clock (S reads) rest
        else overdue clock (S reads) rest
  end.

(** GET /api/analytics/dashboard.  The five counters of the response;
    its two lists ([recentProjects], [pendingFollowUpsList]) come from
    [Array.prototype.sort] and are not modelled.  No counter depends on
    them: [projects] is sorted in place only after [totalRevenue] is
    computed. *)
Definition GET_api_analytics_dashboard (isAuthenticated : bool)
  (clock : nat -> Z) (storage : MemStorage) : Response :=
  if negb isAuthenticated then unauthorized
  else
    let clients := getClients storage in
    let projects := getProjects storage in
    let followUps := getFollowUps storage in
    let totalClients := List.length clients in
    let activeProjects :=
      List.length
        (filter (fun p => eq_string (Project.status p) "In Progress")
                projects) in
    let pendingFollowUps :=
      List.length
        (filter (fun f => eq_string (FollowUp.status f) "Pending")
                followUps) in
    let overdueFollowUps := List.length (overdue clock 0 followUps) in
    let totalRevenue := fold_left add_price projects 0%float in
    {| statusCode := 200;
       json := Analytics {|
         totalClients := totalClients;
         activeProjects := activeProjects;
         pendingFollowUps := pendingFollowUps;
         overdueFollowUps := overdueFollowUps;
         totalRevenue := totalRevenue
       |}
    |}.

(** The body of a dashboard response. *)
Definition dashboard (clock : nat -> Z) (storage : MemStorage)
  : option DashboardBody :=
  match json (GET_api_analytics_dashboard true clock storage) with
  | Analytics body => Some body
  | _ => None
  end.
End Dashboard.

(** ** Vocabulary of the properties *)

(** The keys of every table are pairwise distinct and lie below the
    table's counter. *)
Definition ids_below_counter (s : MemStorage) : Prop :=
  forall e, NoDup (keys_of e s)
            /\ forall k, In k (keys_of e s) -> k < counter_of e s.

(** An association is stored under the composite key of its own two ids,
    and no key occurs twice. *)
Definition client_services_keyed (s : MemStorage) : Prop :=
  NoDup (JsMap.keys (clientServiceStore s))
  /\ Forall (fun kv => fst kv = pair_key (ClientService.clientId (snd kv))
                                         (ClientService.serviceId (snd kv)))
            (clientServiceStore s).

(** Whether an association is the one of a given pair of ids. *)
Definition same_pair (a b : ClientService.t) : bool :=
  Z.eqb (ClientService.clientId a) (ClientService.clientId b)
  && Z.eqb (ClientService.serviceId a) (ClientService.serviceId b).

(** Every record of table [e] carries, as its [id] property, the key it
    is stored under. *)
Definition own_id (e : entity) (s : MemStorage) : Prop :=
  Forall (fun kf => snd kf = Some (fst kf)) (id_fields e s).

(** The table and id an update addresses, and the [id] property of its
    payload. *)
Definition update_target (c : call) : option (entity * Z) :=
  match c with
  | UpdateClient id _ => Some (EClient, id)
  | UpdateService id _ => Some (EService, id)
  | UpdateProject id _ => Some (EProject, id)
  | UpdateNewClientContact id _ => Some (ENewClientContact, id)
  | UpdateFollowUp id _ => Some (EFollowUp, id)
  | UpdateEmployee id _ => Some (EEmployee, id)
  | _ => None
  end.

Definition payload_id (c : call) : option Z :=
  match c with
  | UpdateClient _ d => Client.id d
  | UpdateService _ d => Service.id d
  | UpdateProject _ d => Project.id d
  | UpdateNewClientContact _ d => NewClientContact.id d
  | UpdateFollowUp _ d => FollowUp.id d
  | UpdateEmployee _ d => Employee.id d
  | _ => None
  end.

(** An update payload that carries a status and nothing else. *)
Definition only_status (status : string) : Project.t :=
  Project.mk None None None None None None None None None None (Some status).

(** [x.price] read as a number. *)
Definition price_number (price : option float) : float :=
  match price with
  | Some p => p
  | None => PrimFloat.nan
  end.

(** Whether a follow-up is overdue at time [t]. *)
Definition is_overdue (Date_parse : string -> option Z) (t : Z)
  (f : FollowUp.t) : bool :=
  eq_string (FollowUp.status f) "Pending"
  && Date_lt (new_Date Date_parse (FollowUp.dueDate f)) t.

(** ** Sample rows

    The rows of the specification's example scenario, and a document of a
    project other than 0, for the worked instances below. *)

Definition acme_co : Client.t := {|
  Client.id := None;
  Client.name := Some "Acme Co";
  Client.phone := Some "555-0100";
  Client.address := None;
  Client.clientType := Some "Company"
|}.

Definition project_500 : Project.t := {|
  Project.id := None;
  Project.clientId := Some 1;
  Project.name := Some "Website";
  Project.dateRequested := Some "2024-01-15";
  Project.dateOfExecution := None;
  Project.description := None;
  Project.invoiceFile := None;
  Project.cost := Some 300%float;
  Project.price := Some 500%float;
  Project.duration := None;
  Project.status := None
|}.

Definition document_7 : ProjectDocument.t := {|
  ProjectDocument.id := None;
  ProjectDocument.projectId := Some 7;
  ProjectDocument.filename := Some "1700000000000_plan.pdf";
  ProjectDocument.filepath := Some "uploads/1700000000000_plan.pdf";
  ProjectDocument.uploadDate := Some 1700000000000
|}.

(** ** Further route handlers of [server/routes.ts]

    The handlers that take all they need from path and query parameters
    (no body to validate).  Path parameters are [parseInt(req.params.x)];
    a reply is what the handler sends: [res.status(s).json(data)],
    [res.status(s).json({ message })] or [res.status(s).end()]. *)

Inductive Reply (A : Type) : Type :=
| Sent (status : Z) (data : A)
| Refused (status : Z) (message : string)
| Ended (status : Z).
Arguments Sent {A} status data.
Arguments Refused {A} status message.
Arguments Ended {A} status.

Definition reply_status {A : Type} (r : Reply A) : Z :=
  match r with
  | Sent status _ => status
  | Refused status _ => status
  | Ended status => status
  end.

(** The middleware [isAuthenticated]: the handler runs for an
    authenticated session; any other request is answered 401. *)
Definition isAuthenticated {A B : Type} (authenticated : bool)
  (next : B -> Reply A * B) (state : B) : Reply A * B :=
  if authenticated then next state
  else (Refused 401 "Unauthorized", state).

(** POST /api/clients/:clientId/services/:serviceId *)
Definition POST_api_clients_services (authenticated : bool)
  (clientId serviceId : Z) : MemStorage -> Reply ClientService.t * MemStorage :=
  isAuthenticated authenticated (fun storage =>
    let client := getClient clientId storage in
    let service := getService serviceId storage in
    match client, service with
    | Some _, Some _ =>
        let (clientService, storage) :=
          addServiceToClient (ClientService.mk clientId serviceId) storage in
        (Sent 201 clientService, storage)
    | _, _ => (Refused 404 "Client or service not found", storage)
    end).

(** DELETE /api/clients/:clientId/services/:serviceId *)
Definition DELETE_api_clients_services (authenticated : bool)
  (clientId serviceId : Z) : MemStorage -> Reply unit * MemStorage :=
  isAuthenticated authenticated (fun storage =>
    let (success, storage) :=
      removeServiceFromClient clientId serviceId storage in
    if negb success then (Refused 404 "Client service not found", storage)
    else (Ended 204, storage)).

(** POST /api/employees/:employeeId/clients/:clientId *)
Definition POST_api_employees_clients (authenticated : bool)
  (employeeId clientId : Z)
  : MemStorage -> Reply EmployeeClient.t * MemStorage :=
  isAuthenticated authenticated (fun storage =>
    let (employeeClient, storage) :=
      assignClientToEmployee (EmployeeClient.mk employeeId clientId)
                             storage in
    (Sent 201 employeeClient, storage)).

(** DELETE /api/employees/:employeeId/clients/:clientId *)
Definition DELETE_api_employees_clients (authenticated : bool)
  (employeeId clientId : Z) : MemStorage -> Reply unit * MemStorage :=
  isAuthenticated authenticated (fun storage =>
    let (success, storage) :=
      unassignClientFromEmployee employeeId clientId storage in
    if negb success then (Refused 404 "Assignment not found", storage)
    else (Ended 204, storage)).

(** DELETE /api/clients/:id *)
Definition DELETE_api_clients (authenticated : bool) (id : Z)
  : MemStorage -> Reply unit * MemStorage :=
  isAuthenticated authenticated (fun storage =>
    let (success, storage) := deleteClient id storage in
    if negb success then (Refused 404 "Client not found", storage)
    else (Ended 204, storage)).

(** Whether [if (x)] holds of a nullable string property: it is there,
    not null and not empty. *)
Definition truthy_string (x : option (nullable string)) : option string :=
  match x with
  | Some (notnull s) => if String.eqb s "" then None else Some s
  | _ => None
  end.

(** DELETE /api/projects/:id.  The state is the store and the list of
    paths handed to [unlink], latest last; a failing [unlink] is caught
    and logged. *)
Definition DELETE_api_projects (authenticated : bool) (id : Z)
  : MemStorage * list string -> Reply unit * (MemStorage * list string) :=
  isAuthenticated authenticated (fun state : MemStorage * list string =>
    let (storage, unlinked) := state in
    match getProject id storage with
    | None => (Refused 404 "Project not found", (storage, unlinked))
    | Some project =>
        let unlinked :=
          match truthy_string (Project.invoiceFile project) with
          | Some path => unlinked ++ [path]
          | None => unlinked
          end in
        let (success, storage) := deleteProject id storage in
        (Ended 204, (storage, unlinked))
    end).

Section Queries.
(** [parseInt(s)] on a query parameter; [None] is NaN.  How the numeral is
    read is the runtime's business and is left open. *)
Variable parseInt : string -> option Z.

(** [if (n)] for a number that may be [undefined] or NaN: it is a number
    other than 0. *)
Definition truthy_number (n : option (option Z)) : option Z :=
  match n with
  | Some (Some k) => if Z.eqb k 0 then None else Some k
  | _ => None
  end.

(** [req.query.x ? parseInt(req.query.x) : undefined]; an empty or absent
    parameter is [undefined]. *)
Definition query_number (x : option string) : option (option Z) :=
  match x with
  | Some s => if String.eqb s "" then None else Some (parseInt s)
  | None => None
  end.

(** [if (status)] for a query parameter: it is there and not empty. *)
Definition query_string (x : option string) : option string :=
  match x with
  | Some s => if String.eqb s "" then None else Some s
  | None => None
  end.

(** GET /api/projects, with the query parameters [status] and
    [clientId]. *)
Definition GET_api_projects (authenticated : bool)
  (status clientId : option string)
  : MemStorage -> Reply (list Project.t) * MemStorage :=
  isAuthenticated authenticated (fun storage =>
    let clientId := query_number clientId in
    let projects :=
      match query_string status with
      | Some status => getProjectsByStatus status storage
      | None =>
          match truthy_number clientId with
          | Some clientId => getProjectsByClient clientId storage
          | None => getProjects storage
          end
      end in
    (Sent 200 projects, storage)).

(** GET /api/followups, with the query parameters [status], [clientId]
    and [employeeId]. *)
Definition GET_api_followups (authenticated : bool)
  (status clientId employeeId : option string)
  : MemStorage -> Reply (list FollowUp.t) * MemStorage :=
  isAuthenticated authenticated (fun storage =>
    let clientId := query_number clientId in
    let employeeId := query_number employeeId in
    let followUps :=
      match query_string status with
      | Some status => getFollowUpsByStatus status storage
      | None =>
          match truthy_number clientId with
          | Some clientId => getFollowUpsByClient clientId storage
          | None =>
              match truthy_number employeeId with
              | Some employeeId => getFollowUpsByEmployee employeeId storage
              | None => getFollowUps storage
              end
          end
      end in
    (Sent 200 followUps, storage)).
End Queries.

(** ** Contracts of the table methods

    What [get], the listing, [create], [update] and [delete] of one table
    owe each other, stated once and instantiated with the methods of each
    entity. *)

(** [delete k]: it reports whether a record was under [k]; afterwards
    none is; the other records are as before; deleting again reports
    [false] and changes nothing; and a delete that reports [false] has
    changed nothing. *)
Definition delete_contract {V : Type}
  (get : Z -> MemStorage -> option V)
  (delete : Z -> MemStorage -> bool * MemStorage)
  (s : MemStorage) (k : Z) : Prop :=
  let (found, s1) := delete k s in
  (found = true <-> get k s <> None)
  /\ get k s1 = None
  /\ (forall k', k' <> k -> get k' s1 = get k' s)
  /\ delete k s1 = (false, s1)
  /\ (found = false -> s1 = s).

(** [create input]: the new record goes to the end of the listing, and
    every record that could be fetched before can be fetched after,
    unchanged. *)
Definition create_contract {V : Type}
  (list_all : MemStorage -> list V)
  (get : Z -> MemStorage -> option V)
  (create : V -> MemStorage -> V * MemStorage)
  (s : MemStorage) (input : V) : Prop :=
  let (r, s1) := create input s in
  list_all s1 = list_all s ++ [r]
  /\ forall k v, get k s = Some v -> get k s1 = Some v.



(** The boolean a call reports, for the calls that return one. *)
Definition reported (c : call) (this : MemStorage) : option bool :=
  match c with
  | DeleteClient id => Some (fst (deleteClient id this))
  | DeleteService id => Some (fst (deleteService id this))
  | DeleteProject id => Some (fst (deleteProject id this))
  | DeleteProjectDocument id => Some (fst (deleteProjectDocument id this))
  | DeleteNewClientContact id => Some (fst (deleteNewClientContact id this))
  | DeleteFollowUp id => Some (fst (deleteFollowUp id this))
  | DeleteEmployee id => Some (fst (deleteEmployee id this))
  | RemoveServiceFromClient c s =>
      Some (fst (removeServiceFromClient c s this))
  | UnassignClientFromEmployee e c =>
      Some (fst (unassignClientFromEmployee e c this))
  | ConvertContactToClient k c => Some (fst (convertContactToClient k c this))
  | _ => None
  end.

(** An employee's assignments are stored under the composite key of
    their own two ids, and no key occurs twice. *)
Definition employee_clients_keyed (s : MemStorage) : Prop :=
  NoDup (JsMap.keys (employeeClientStore s))
  /\ Forall (fun kv => fst kv = pair_key (EmployeeClient.employeeId (snd kv))
                                         (EmployeeClient.clientId (snd kv)))
            (employeeClientStore s).

(** The number of follow-ups that are pending. *)
Definition pending_count (followUps : list FollowUp.t) : nat :=
  List.length (filter (fun f => eq_string (FollowUp.status f) "Pending")
                      followUps).

(** Reading a composite key back: the text up to the first ['-'] that is
    not the leading sign, and the text after it. *)
Fixpoint split_at_dash (s : string) : option (string * string) :=
  match s with
  | EmptyString => None
  | String c rest =>
      if Ascii.eqb c "-"%char then Some (EmptyString, rest)
      else match split_at_dash rest with
           | Some (a, b) => Some (String c a, b)
           | None => None
           end
  end.

Definition split_key (key : string) : option (string * string) :=
  match key with
  | String c rest =>
      if Ascii.eqb c "-"%char
      then match split_at_dash rest with
           | Some (a, b) => Some (String c a, b)
           | None => None
           end
      else split_at_dash key
  | EmptyString => None
  end.

(** The integers a JavaScript number holds exactly: magnitude below
    2^53 ([Number.isSafeInteger]). *)
Definition safe_integer (n : Z) : Prop :=
  - (2 ^ 53) < n < 2 ^ 53.

(** A map whose every value is stored under the key made from the value
    itself, with no key repeated. *)
Definition keyed {V : Type} (key_of : V -> string) (m : JsMap.t string V)
  : Prop :=
  NoDup (JsMap.keys m) /\ Forall (fun kv => fst kv = key_of (snd kv)) m.

(** The composite keys of the two association tables. *)
Definition client_service_key (cs : ClientService.t) : string :=
  pair_key (ClientService.clientId cs) (ClientService.serviceId cs).

Definition employee_client_key (ec : EmployeeClient.t) : string :=
  pair_key (EmployeeClient.employeeId ec) (EmployeeClient.clientId ec).

(** A query parameter that is absent or empty, and one that holds a
    non-empty text which [parseInt] reads as [n] ([None]: NaN). *)
Definition blank (x : option string) : Prop :=
  x = None \/ x = Some "".

Definition parses_to (parseInt : string -> option Z) (x : option string)
  (n : option Z) : Prop :=
  exists text, x = Some text /\ text <> "" /\ parseInt text = n.

(** ** Sample stores and payloads

    A store with one client, one with one project, a second user who
    takes the username "admin", and a payload that renames a client. *)

Definition store_with_acme : MemStorage :=
  exec (CreateClient
          (Client.mk None (Some "Acme Co") (Some "555-0100") None
                     (Some "Company")))
       new_MemStorage.

Definition store_with_project : MemStorage :=
  exec (CreateProject
          (Project.mk None (Some 1) (Some "Website") (Some "2024-01-15")
                      None None (Some (notnull "uploads/invoice_1.pdf"))
                      (Some 300%float) (Some 500%float) None None))
       new_MemStorage.

Definition second_admin : User.t := {|
  User.id := None;
  User.username := Some "admin";
  User.password := Some "other";
  User.employeeId := None
|}.

Definition rename_acme : Client.t :=
  Client.mk None (Some "Acme Corporation") None None None.

(** * Properties *)

(** ** Facts about [JsMap] *)

Module JsMapFacts.
Import JsMap.

Section Facts.
Context {K V : Type}.
Variable eqb : K -> K -> bool.
Hypothesis eqb_eq : forall a b, eqb a b = true <-> a = b.

Let eqb_refl : forall a, eqb a a = true.
Proof. intro a. apply eqb_eq. reflexivity. Qed.

Let eqb_neq : forall a b, a <> b -> eqb a b = false.
Proof.
  intros a b Hab. destruct (eqb a b) eqn:E; [|reflexivity].
  apply eqb_eq in E. contradiction.
Qed.

Lemma get_set_same (k : K) (v : V) (m : JsMap.t K V) :
  get eqb k (set eqb k v m) = Some v.
Proof.
  induction m as [|[k' v'] rest IH]; simpl.
  - rewrite eqb_refl. reflexivity.
  - destruct (eqb k k') eqn:E; simpl; rewrite E; [reflexivity | exact IH].
Qed.

Lemma get_set_other (k k0 : K) (v : V) (m : JsMap.t K V) :
  k0 <> k -> get eqb k0 (set eqb k v m) = get eqb k0 m.
Proof.
  intros Hne. induction m as [|[k' v'] rest IH]; simpl.
  - rewrite (eqb_neq _ _ Hne). reflexivity.
  - destruct (eqb k k') eqn:E; simpl.
    + apply eqb_eq in E. subst k'. rewrite (eqb_neq _ _ Hne). reflexivity.
    + destruct (eqb k0 k'); [reflexivity | exact IH].
Qed.

Lemma get_none_not_in (k : K) (m : JsMap.t K V) :
  get eqb k m = None <-> ~ In k (keys m).
Proof.
  induction m as [|[k' v'] rest IH]; simpl.
  - split; [intros _ [] | reflexivity].
  - destruct (eqb k k') eqn:E.
    + apply eqb_eq in E. subst k'. split; [discriminate | intros H; exfalso; auto].
    + rewrite IH. split.
      * intros Hn [H | H]; [subst k'; rewrite eqb_refl in E; discriminate | auto].
      * intros Hn H. apply Hn. right. exact H.
Qed.

Lemma get_some_in (k : K) (v : V) (m : JsMap.t K V) :
  get eqb k m = Some v -> In (k, v) m.
Proof.
  induction m as [|[k' v'] rest IH]; simpl; [discriminate|].
  destruct (eqb k k') eqn:E.
  - apply eqb_eq in E. subst k'. intros [= ->]. left. reflexivity.
  - intros H. right. apply IH. exact H.
Qed.

Lemma in_get_some (k : K) (v : V) (m : JsMap.t K V) :
  NoDup (keys m) -> In (k, v) m -> get eqb k m = Some v.
Proof.
  induction m as [|[k' v'] rest IH]; simpl; [intros _ []|].
  intros Hnd [Hin | Hin].
  - injection Hin as -> ->. rewrite eqb_refl. reflexivity.
  - inversion Hnd as [|? ? Hnotin Hnd']; subst.
    destruct (eqb k k') eqn:E.
    + apply eqb_eq in E. subst k'. exfalso. apply Hnotin.
      change k with (fst (k, v)). apply in_map. exact Hin.
    + apply IH; assumption.
Qed.

(** A new key is appended; an existing key is overwritten in place. *)
Lemma set_fresh (k : K) (v : V) (m : JsMap.t K V) :
  get eqb k m = None -> set eqb k v m = m ++ [(k, v)].
Proof.
  induction m as [|[k' v'] rest IH]; simpl; [reflexivity|].
  destruct (eqb k k'); [discriminate|].
  intros H. rewrite (IH H). reflexivity.
Qed.

Lemma keys_set_present (k : K) (v : V) (m : JsMap.t K V) :
  get eqb k m <> None -> keys (set eqb k v m) = keys m.
Proof.
  induction m as [|[k' v'] rest IH]; simpl; [congruence|].
  destruct (eqb k k') eqn:E; simpl; [reflexivity|].
  intros H. rewrite (IH H). reflexivity.
Qed.

Lemma keys_set (k : K) (v : V) (m : JsMap.t K V) :
  keys (set eqb k v m) = if has eqb k m then keys m else keys m ++ [k].
Proof.
  unfold has. destruct (get eqb k m) eqn:E.
  - apply keys_set_present. congruence.
  - rewrite (set_fresh _ _ _ E). unfold keys. rewrite map_app. reflexivity.
Qed.

Lemma set_idempotent (k : K) (v : V) (m : JsMap.t K V) :
  set eqb k v (set eqb k v m) = set eqb k v m.
Proof.
  induction m as [|[k' v'] rest IH]; simpl.
  - rewrite eqb_refl. reflexivity.
  - destruct (eqb k k') eqn:E; simpl; rewrite E; [reflexivity|].
    rewrite IH. reflexivity.
Qed.

Lemma remove_absent (k : K) (m : JsMap.t K V) :
  get eqb k m = None -> remove eqb k m = m.
Proof.
  induction m as [|[k' v'] rest IH]; simpl; [reflexivity|].
  destruct (eqb k k'); [discriminate|].
  intros H. rewrite (IH H). reflexivity.
Qed.

Lemma in_remove (e : K * V) (k : K) (m : JsMap.t K V) :
  In e (remove eqb k m) -> In e m.
Proof.
  induction m as [|[k' v'] rest IH]; simpl; [auto|].
  destruct (eqb k k'); simpl; [auto|].
  intros [H | H]; [left; exact H | right; apply IH; exact H].
Qed.

Lemma in_keys_remove (k0 k : K) (m : JsMap.t K V) :
  In k0 (keys (remove eqb k m)) -> In k0 (keys m).
Proof.
  unfold keys. rewrite !in_map_iff.
  intros [e [He Hin]]. exists e. split; [exact He|].
  apply in_remove with (k := k). exact Hin.
Qed.

Lemma in_set (e : K * V) (k : K) (v : V) (m : JsMap.t K V) :
  In e (set eqb k v m) -> In e m \/ (fst e = k /\ snd e = v).
Proof.
  induction m as [|[k' v'] rest IH]; simpl.
  - intros [<- | []]. right. split; reflexivity.
  - destruct (eqb k k') eqn:E; simpl.
    + apply eqb_eq in E. subst k'.
      intros [<- | H]; [right; split; reflexivity | left; right; exact H].
    + intros [H | H]; [left; left; exact H|].
      destruct (IH H) as [H' | H']; [left; right; exact H' | right; exact H'].
Qed.

Lemma NoDup_keys_set (k : K) (v : V) (m : JsMap.t K V) :
  NoDup (keys m) -> NoDup (keys (set eqb k v m)).
Proof.
  intros Hnd. rewrite keys_set. unfold has.
  destruct (get eqb k m) eqn:E; [exact Hnd|].
  apply get_none_not_in in E.
  apply NoDup_app; [exact Hnd | repeat constructor; intros [] |].
  intros x Hx [<- | []]. contradiction.
Qed.

Lemma NoDup_keys_remove (k : K) (m : JsMap.t K V) :
  NoDup (keys m) -> NoDup (keys (remove eqb k m)).
Proof.
  induction m as [|[k' v'] rest IH]; simpl; [auto|].
  intros Hnd. inversion Hnd as [|? ? Hnotin Hnd']; subst.
  destruct (eqb k k'); simpl; [exact Hnd'|].
  constructor; [|apply IH; exact Hnd'].
  intros Hin. apply Hnotin. apply in_keys_remove with (k := k). exact Hin.
Qed.

Lemma Forall_set (P : K * V -> Prop) (k : K) (v : V) (m : JsMap.t K V) :
  Forall P m -> P (k, v) -> Forall P (set eqb k v m).
Proof.
  intros Hm Hkv. apply Forall_forall. intros [k0 v0] Hin.
  destruct (in_set _ _ _ _ Hin) as [H | [H1 H2]].
  - rewrite Forall_forall in Hm. apply Hm. exact H.
  - simpl in H1, H2. subst. exact Hkv.
Qed.

Lemma Forall_remove (P : K * V -> Prop) (k : K) (m : JsMap.t K V) :
  Forall P m -> Forall P (remove eqb k m).
Proof.
  intros Hm. apply Forall_forall. intros e Hin.
  rewrite Forall_forall in Hm. apply Hm.
  apply in_remove with (k := k). exact Hin.
Qed.
End Facts.

End JsMapFacts.

(** ** Maps keyed by ids and by composite keys *)

Lemma get_set_id {V : Type} (k : Z) (v : V) (m : JsMap.t Z V) :
  JsMap.get Z.eqb k (JsMap.set Z.eqb k v m) = Some v.
Proof. apply JsMapFacts.get_set_same. exact Z.eqb_eq. Qed.

Lemma get_none_iff {V : Type} (k : Z) (m : JsMap.t Z V) :
  JsMap.get Z.eqb k m = None <-> ~ In k (JsMap.keys m).
Proof. apply JsMapFacts.get_none_not_in. exact Z.eqb_eq. Qed.

Lemma in_values_set {V : Type} (k : Z) (v : V) (m : JsMap.t Z V) :
  In v (JsMap.values (JsMap.set Z.eqb k v m)).
Proof.
  unfold JsMap.values. apply in_map_iff. exists (k, v). split; [reflexivity|].
  apply (JsMapFacts.get_some_in Z.eqb Z.eqb_eq). apply get_set_id.
Qed.

(** ** Create, then get *)

(** C1. For every entity type and every insert input, [create] returns the
    input with the assigned id added, [{ ...input, id }]: a record whose
    [id] is the assigned id and whose every other property is the
    input's, present or absent as in the input.  [get] with that id,
    called on the store [create] leaves, returns that same record.
    Project documents have no getter by id: there the record is the one
    the map holds under the id, and it is listed by [getProjectDocuments]
    under its project. *)
Theorem create_then_get (s : MemStorage) :
  (forall u, exists i,
      let (r, s') := createUser u s in
      User.id r = Some i
      /\ r = User.mk (Some i) (User.username u) (User.password u)
                     (User.employeeId u)
      /\ getUser i s' = Some r)
  /\ (forall c, exists i,
      let (r, s') := createClient c s in
      Client.id r = Some i
      /\ r = Client.mk (Some i) (Client.name c) (Client.phone c)
                       (Client.address c) (Client.clientType c)
      /\ getClient i s' = Some r)
  /\ (forall c, exists i,
      let (r, s') := createService c s in
      Service.id r = Some i
      /\ r = Service.mk (Some i) (Service.name c) (Service.description c)
                        (Service.frequency c) (Service.basePrice c)
      /\ getService i s' = Some r)
  /\ (forall p, exists i,
      let (r, s') := createProject p s in
      Project.id r = Some i
      /\ r = Project.mk (Some i) (Project.clientId p) (Project.name p)
                        (Project.dateRequested p) (Project.dateOfExecution p)
                        (Project.description p) (Project.invoiceFile p)
                        (Project.cost p) (Project.price p)
                        (Project.duration p) (Project.status p)
      /\ getProject i s' = Some r)
  /\ (forall c, exists i,
      let (r, s') := createNewClientContact c s in
      NewClientContact.id r = Some i
      /\ r = NewClientContact.mk
               (Some i) (NewClientContact.contactName c)
               (NewClientContact.phoneEmail c)
               (NewClientContact.contactedDate c)
               (NewClientContact.contactMethod c)
               (NewClientContact.responseType c) (NewClientContact.notes c)
               (NewClientContact.convertedToClient c)
               (NewClientContact.convertedClientId c)
      /\ getNewClientContact i s' = Some r)
  /\ (forall f, exists i,
      let (r, s') := createFollowUp f s in
      FollowUp.id r = Some i
      /\ r = FollowUp.mk (Some i) (FollowUp.taskDescription f)
                         (FollowUp.clientId f) (FollowUp.relatedProjectId f)
                         (FollowUp.assignedEmployeeId f) (FollowUp.dueDate f)
                         (FollowUp.status f) (FollowUp.notes f)
                         (FollowUp.createdById f)
      /\ getFollowUp i s' = Some r)
  /\ (forall e, exists i,
      let (r, s') := createEmployee e s in
      Employee.id r = Some i
      /\ r = Employee.mk (Some i) (Employee.name e) (Employee.email e)
                         (Employee.role e) (Employee.activeStatus e)
      /\ getEmployee i s' = Some r)
  /\ (forall d, exists i,
      let (r, s') := createProjectDocument d s in
      ProjectDocument.id r = Some i
      /\ r = ProjectDocument.mk (Some i) (ProjectDocument.projectId d)
                                (ProjectDocument.filename d)
                                (ProjectDocument.filepath d)
                                (ProjectDocument.uploadDate d)
      /\ JsMap.get Z.eqb i (projectDocumentStore s') = Some r
      /\ forall p, ProjectDocument.projectId d = Some p ->
                   In r (getProjectDocuments p s')).
Proof.
  repeat split.
  1: intros u; exists (userId s).
  2: intros c; exists (clientId s).
  3: intros c; exists (serviceId s).
  4: intros p; exists (projectId s).
  5: intros c; exists (newClientContactId s).
  6: intros f; exists (followUpId s).
  7: intros e; exists (employeeId s).
  8: intros d; exists (projectDocumentId s).
  all: cbn; repeat split; try apply get_set_id.
  intros p Hp. unfold getProjectDocuments. apply filter_In. split.
  - cbn. apply in_values_set.
  - cbn. rewrite Hp. cbn. apply Z.eqb_refl.
Qed.

(** ** Update of an id that is not there *)

(** C2. For every entity type that has an update, every store, every id
    that is not a key of that entity's map and every payload: [update]
    returns [undefined] and the store it leaves is the store it was given,
    so nothing is inserted under that id. *)
Theorem update_missing_id (s : MemStorage) (id : Z) :
  (forall d, ~ In id (JsMap.keys (clientStore s)) ->
             updateClient id d s = (None, s))
  /\ (forall d, ~ In id (JsMap.keys (serviceStore s)) ->
                updateService id d s = (None, s))
  /\ (forall d, ~ In id (JsMap.keys (projectStore s)) ->
                updateProject id d s = (None, s))
  /\ (forall d, ~ In id (JsMap.keys (newClientContactStore s)) ->
                updateNewClientContact id d s = (None, s))
  /\ (forall d, ~ In id (JsMap.keys (followUpStore s)) ->
                updateFollowUp id d s = (None, s))
  /\ (forall d, ~ In id (JsMap.keys (employeeStore s)) ->
                updateEmployee id d s = (None, s)).
Proof.
  repeat split; intros d Hid; apply get_none_iff in Hid.
  - unfold updateClient. rewrite Hid. reflexivity.
  - unfold updateService. rewrite Hid. reflexivity.
  - unfold updateProject. rewrite Hid. reflexivity.
  - unfold updateNewClientContact. rewrite Hid. reflexivity.
  - unfold updateFollowUp. rewrite Hid. reflexivity.
  - unfold updateEmployee. rewrite Hid. reflexivity.
Qed.

(** ** Conversion of a contact *)

Lemma get_set_other_id {V : Type} (k k0 : Z) (v : V) (m : JsMap.t Z V) :
  k0 <> k -> JsMap.get Z.eqb k0 (JsMap.set Z.eqb k v m) = JsMap.get Z.eqb k0 m.
Proof. apply JsMapFacts.get_set_other. exact Z.eqb_eq. Qed.

(** C5. [convertContactToClient(contactId, clientId)]: with no contact
    under [contactId] it returns [false] and leaves the store as it was.
    With a contact there it returns [true]; the contact then stored under
    [contactId] is the old one with [convertedToClient] set to [true] and
    [convertedClientId] set to [clientId]; the other contacts stay, and
    the client map and its counter are not touched: the client is neither
    looked up nor created, so the call succeeds also when no client has
    that id. *)
Theorem convert_contact_to_client (s : MemStorage) (contactId clientId : Z) :
  match getNewClientContact contactId s with
  | None => convertContactToClient contactId clientId s = (false, s)
  | Some contact =>
      let (success, s') := convertContactToClient contactId clientId s in
      success = true
      /\ (exists updated,
             getNewClientContact contactId s' = Some updated
             /\ NewClientContact.convertedToClient updated = Some true
             /\ NewClientContact.convertedClientId updated
                = Some (notnull clientId)
             /\ updated = NewClientContact.converted contact clientId)
      /\ (forall other, other <> contactId ->
             getNewClientContact other s' = getNewClientContact other s)
      /\ getClient clientId s' = getClient clientId s
      /\ clientStore s' = clientStore s
      /\ counter_of EClient s' = counter_of EClient s
  end.
Proof.
  unfold getNewClientContact, convertContactToClient.
  destruct (JsMap.get Z.eqb contactId (newClientContactStore s)) as [contact|];
    [|reflexivity].
  cbn. repeat split.
  - exists (NewClientContact.converted contact clientId).
    repeat split. apply get_set_id.
  - intros other Hother. apply get_set_other_id. exact Hother.
Qed.

(** ** What a call does to the tables *)

#[local] Arguments JsMap.keys : simpl never.
#[local] Arguments JsMap.values : simpl never.

Ltac unfold_methods :=
  unfold createUser, createClient, updateClient, deleteClient,
    createService, updateService, deleteService,
    createProject, updateProject, deleteProject,
    createProjectDocument, deleteProjectDocument,
    addServiceToClient, removeServiceFromClient,
    createNewClientContact, updateNewClientContact, deleteNewClientContact,
    convertContactToClient,
    createFollowUp, updateFollowUp, deleteFollowUp,
    createEmployee, updateEmployee, deleteEmployee,
    assignClientToEmployee, unassignClientFromEmployee, JsMap.delete.

Ltac case_get :=
  match goal with
  | |- context [JsMap.get ?eqb ?k ?m] =>
      let E := fresh "Hget" in destruct (JsMap.get eqb k m) eqn:E
  end.

(** Every call, by cases: the method bodies are unfolded and an update or
    a conversion is split on whether the id is there. *)
Ltac by_call c :=
  destruct c; cbn [exec assigned]; unfold_methods; try case_get.

Lemma NoDup_keys_set_id {V : Type} (k : Z) (v : V) (m : JsMap.t Z V) :
  NoDup (JsMap.keys m) -> NoDup (JsMap.keys (JsMap.set Z.eqb k v m)).
Proof. apply JsMapFacts.NoDup_keys_set. exact Z.eqb_eq. Qed.

Lemma in_keys_set_id {V : Type} (k0 k : Z) (v : V) (m : JsMap.t Z V) :
  In k0 (JsMap.keys (JsMap.set Z.eqb k v m)) ->
  In k0 (JsMap.keys m) \/ k0 = k.
Proof.
  rewrite (JsMapFacts.keys_set Z.eqb).
  destruct (JsMap.has Z.eqb k m); [auto|].
  rewrite in_app_iff. simpl. intuition.
Qed.

Lemma get_some_in_keys {V : Type} (k : Z) (v : V) (m : JsMap.t Z V) :
  JsMap.get Z.eqb k m = Some v -> In k (JsMap.keys m).
Proof.
  intros H. apply (JsMapFacts.get_some_in Z.eqb Z.eqb_eq) in H.
  unfold JsMap.keys. change k with (fst (k, v)). apply in_map. exact H.
Qed.

Lemma keys_update_id {V : Type} (k : Z) (v v' : V) (m : JsMap.t Z V) :
  JsMap.get Z.eqb k m = Some v ->
  JsMap.keys (JsMap.set Z.eqb k v' m) = JsMap.keys m.
Proof. intros H. apply JsMapFacts.keys_set_present. congruence. Qed.


Lemma ids_below_counter_exec (c : call) (s : MemStorage) :
  ids_below_counter s -> ids_below_counter (exec c s).
Proof.
  intros H e. destruct (H e) as [Hnd Hlt].
  by_call c; destruct e; cbn -[Z.eqb] in *; try (split; assumption).
  all: split;
    [ first [ apply NoDup_keys_set_id; assumption
            | apply JsMapFacts.NoDup_keys_remove; assumption ]
    | intros k Hk;
      first [ apply in_keys_set_id in Hk; destruct Hk as [Hk | ->];
              [ specialize (Hlt k Hk); lia
              | first [ lia | apply Hlt; eapply get_some_in_keys; eassumption ] ]
            | apply JsMapFacts.in_keys_remove in Hk; auto ] ].
Qed.

Lemma ids_below_counter_initial : ids_below_counter initial_fields.
Proof.
  intros e. destruct e; cbn; (split; [constructor | intros k []]).
Qed.

Lemma ids_below_counter_run (calls : list call) (s : MemStorage) :
  ids_below_counter s -> ids_below_counter (run calls s).
Proof.
  revert s. induction calls as [|c calls IH]; intros s H; [exact H|].
  apply IH. apply ids_below_counter_exec. exact H.
Qed.

Lemma new_MemStorage_run :
  new_MemStorage = run seed_calls initial_fields.
Proof. reflexivity. Qed.



Lemma reachable_ids_below_counter (s : MemStorage) :
  reachable s -> ids_below_counter s.
Proof.
  induction 1.
  - rewrite new_MemStorage_run. apply ids_below_counter_run.
    apply ids_below_counter_initial.
  - apply ids_below_counter_exec. assumption.
Qed.

(** ** Assigned ids *)



(** ** Associations *)


Lemma client_services_keyed_exec (c : call) (s : MemStorage) :
  client_services_keyed s -> client_services_keyed (exec c s).
Proof.
  intros [Hnd Hall]. unfold client_services_keyed.
  by_call c; cbn -[String.eqb]; try (split; assumption); split.
  - apply (JsMapFacts.NoDup_keys_set String.eqb String.eqb_eq). exact Hnd.
  - apply (JsMapFacts.Forall_set String.eqb String.eqb_eq); [exact Hall|].
    reflexivity.
  - apply JsMapFacts.NoDup_keys_remove. exact Hnd.
  - apply JsMapFacts.Forall_remove. exact Hall.
Qed.

Lemma reachable_client_services_keyed (s : MemStorage) :
  reachable s -> client_services_keyed s.
Proof.
  induction 1.
  - split; cbn; constructor.
  - apply client_services_keyed_exec. assumption.
Qed.

(** In a map without repeated keys, a test that holds of one entry and
    only of entries under that entry's key selects exactly that entry. *)
Lemma filter_one_entry {K V : Type} (P : K * V -> bool) (k : K) (v : V)
  (m : JsMap.t K V) :
  NoDup (JsMap.keys m) ->
  In (k, v) m ->
  P (k, v) = true ->
  (forall kv, In kv m -> P kv = true -> fst kv = k) ->
  filter P m = [(k, v)].
Proof.
  induction m as [|[k' v'] rest IH]; [intros _ []|].
  intros Hnd Hin HP Honly.
  unfold JsMap.keys in Hnd. cbn [map fst] in Hnd.
  inversion Hnd as [|? ? Hnotin Hnd']; subst.
  assert (Hrest : forall kv, In kv rest -> fst kv <> k').
  { intros kv Hkv Heq. apply Hnotin. rewrite <- Heq. apply in_map. exact Hkv. }
  destruct Hin as [Hin | Hin].
  - injection Hin as -> ->. cbn [filter]. rewrite HP. f_equal.
    assert (Hnone : forall kv, In kv rest -> P kv = false).
    { intros kv Hkv. destruct (P kv) eqn:E; [|reflexivity].
      exfalso. apply (Hrest kv Hkv). apply Honly; [right; exact Hkv | exact E]. }
    clear -Hnone. induction rest as [|x rest IH]; [reflexivity|].
    cbn [filter]. rewrite (Hnone x (or_introl eq_refl)).
    apply IH. intros kv Hkv. apply Hnone. right. exact Hkv.
  - cbn [filter]. destruct (P (k', v')) eqn:E.
    + exfalso. apply (Hrest (k, v) Hin). cbn.
      symmetry. apply (Honly (k', v')); [left; reflexivity | exact E].
    + apply IH; try assumption.
      intros kv Hkv. apply Honly. right. exact Hkv.
Qed.

Lemma filter_of_map {A B : Type} (f : A -> B) (P : B -> bool) (l : list A) :
  filter P (map f l) = map f (filter (fun x => P (f x)) l).
Proof.
  induction l as [|x l IH]; [reflexivity|].
  cbn [map filter]. destruct (P (f x)); cbn [map]; rewrite IH; reflexivity.
Qed.


(** C6. [addServiceToClient] is idempotent: on every store, adding a pair
    a second time leaves the store (the association map with it) exactly
    as the first addition left it; and on every store the server can
    reach, the association map then holds exactly one association of that
    pair, the one stored under the pair's composite key. *)
Theorem add_service_to_client_idempotent (s : MemStorage)
  (clientService : ClientService.t) :
  let once := snd (addServiceToClient clientService s) in
  let twice := snd (addServiceToClient clientService once) in
  twice = once
  /\ clientServiceStore twice = clientServiceStore once
  /\ (reachable s ->
      filter (same_pair clientService)
             (JsMap.values (clientServiceStore twice)) = [clientService]
      /\ JsMap.get String.eqb
           (pair_key (ClientService.clientId clientService)
                     (ClientService.serviceId clientService))
           (clientServiceStore twice) = Some clientService).
Proof.
  intros once twice.
  assert (Heq : twice = once).
  { unfold twice, once, addServiceToClient. cbn -[String.eqb].
    rewrite (JsMapFacts.set_idempotent String.eqb String.eqb_eq). reflexivity. }
  split; [exact Heq|]. split; [rewrite Heq; reflexivity|].
  intros Hreach. rewrite Heq.
  assert (Hkeyed : client_services_keyed once).
  { apply (client_services_keyed_exec (AddServiceToClient clientService)).
    apply reachable_client_services_keyed. exact Hreach. }
  destruct Hkeyed as [Hnd Hall].
  set (key := pair_key (ClientService.clientId clientService)
                       (ClientService.serviceId clientService)).
  assert (Hget : JsMap.get String.eqb key (clientServiceStore once)
                 = Some clientService).
  { unfold once, addServiceToClient. cbn -[String.eqb].
    apply (JsMapFacts.get_set_same String.eqb String.eqb_eq). }
  split; [|exact Hget].
  unfold JsMap.values.
  rewrite filter_of_map.
  rewrite (filter_one_entry _ key clientService); try assumption.
  - reflexivity.
  - apply (JsMapFacts.get_some_in String.eqb String.eqb_eq). exact Hget.
  - cbn. unfold same_pair. rewrite !Z.eqb_refl. reflexivity.
  - intros [k v] Hkv Hsame. cbn in Hsame.
    rewrite Forall_forall in Hall. rewrite (Hall _ Hkv). cbn.
    unfold same_pair in Hsame. apply andb_prop in Hsame.
    destruct Hsame as [H1 H2].
    apply Z.eqb_eq in H1. apply Z.eqb_eq in H2. rewrite <- H1, <- H2.
    reflexivity.
Qed.

(** ** Records and the ids they are stored under *)



Lemma Forall_map_set {V B : Type} (f : Z * V -> B) (P : B -> Prop)
  (k : Z) (v : V) (m : JsMap.t Z V) :
  Forall P (map f m) -> P (f (k, v)) ->
  Forall P (map f (JsMap.set Z.eqb k v m)).
Proof.
  rewrite !Forall_map. intros Hm Hkv.
  apply (JsMapFacts.Forall_set Z.eqb Z.eqb_eq); assumption.
Qed.

Lemma Forall_map_remove {V B : Type} (f : Z * V -> B) (P : B -> Prop)
  (k : Z) (m : JsMap.t Z V) :
  Forall P (map f m) -> Forall P (map f (JsMap.remove Z.eqb k m)).
Proof.
  rewrite !Forall_map. intros Hm. apply JsMapFacts.Forall_remove. exact Hm.
Qed.

Lemma Forall_map_get {V B : Type} (f : Z * V -> B) (P : B -> Prop)
  (k : Z) (v : V) (m : JsMap.t Z V) :
  Forall P (map f m) -> JsMap.get Z.eqb k m = Some v -> P (f (k, v)).
Proof.
  rewrite Forall_map, Forall_forall. intros Hm Hget.
  apply (Hm (k, v)). apply (JsMapFacts.get_some_in Z.eqb Z.eqb_eq). exact Hget.
Qed.

(** A call keeps the records of table [e] under their own ids, unless it
    is an update of [e] whose payload carries an [id]. *)
Lemma own_id_exec (e : entity) (c : call) (s : MemStorage) :
  own_id e s ->
  (forall k, update_target c = Some (e, k) -> payload_id c = None) ->
  own_id e (exec c s).
Proof.
  unfold own_id. intros H Hpayload.
  by_call c; destruct e; cbn -[Z.eqb] in *; try exact H.
  all: try (apply Forall_map_remove; exact H).
  all: try (apply Forall_map_set; [exact H | reflexivity]).
  all: apply Forall_map_set; [exact H|]; cbn;
    try (rewrite (Hpayload _ eq_refl); cbn);
    exact (Forall_map_get _ _ _ _ _ H Hget).
Qed.


Lemma own_id_new (e : entity) : own_id e new_MemStorage.
Proof. destruct e; repeat constructor. Qed.

(** The table of an update, with a payload that carries an [id]: the
    record under the addressed key gets the payload's [id], and the keys
    are what they were. *)
Lemma update_overwrites_id (c : call) (s : MemStorage) (e : entity)
  (k j : Z) :
  update_target c = Some (e, k) ->
  payload_id c = Some j ->
  In k (keys_of e s) ->
  In (k, Some j) (id_fields e (exec c s))
  /\ keys_of e (exec c s) = keys_of e s.
Proof.
  intros Htarget Hpayload Hin.
  destruct c; try discriminate; cbn in Htarget; injection Htarget as <- <-;
    cbn [exec]; unfold_methods; cbn in Hin, Hpayload; case_get;
    try (apply get_none_iff in Hget; contradiction);
    cbn -[Z.eqb].
  all: split; [|eapply keys_update_id; eassumption].
  all: match goal with
       | |- In _ (map _ (JsMap.set _ ?k ?v _)) =>
           apply in_map_iff; exists (k, v); split;
           [ cbn; rewrite Hpayload; reflexivity
           | apply (JsMapFacts.get_some_in Z.eqb Z.eqb_eq); apply get_set_id ]
       end.
Qed.






(** C10. As long as no update payload carries an [id], every record of
    every table is stored under a key equal to its own [id] property: this
    holds of the constructed store and after every history of such calls,
    and each single call (a create, an update whose payload has no [id], a
    delete, a conversion, an association call) keeps it, from any store
    where it holds; the [get] methods return no store at all.  An update
    whose payload does carry an [id] [j], addressed to a key [k] that is
    there, leaves the keys of the table as they were and the record under
    [k] with [id] property [j]; with [j <> k] the table no longer has its
    records under their own ids. *)
Theorem stored_under_own_id (calls : list call) :
  Forall (fun c => payload_id c = None) calls ->
  let s := run calls new_MemStorage in
  (forall e, own_id e s)
  /\ (forall s0 c, (forall e, own_id e s0) -> payload_id c = None ->
                   forall e, own_id e (exec c s0))
  /\ (forall c e k j,
         update_target c = Some (e, k) -> payload_id c = Some j ->
         In k (keys_of e s) ->
         In (k, Some j) (id_fields e (exec c s))
         /\ keys_of e (exec c s) = keys_of e s
         /\ (j <> k -> ~ own_id e (exec c s))).
Proof.
  intros Hcalls s.
  assert (Hstep : forall s0 c, (forall e, own_id e s0) -> payload_id c = None ->
                               forall e, own_id e (exec c s0)).
  { intros s0 c H0 Hc e. apply own_id_exec; [apply H0 | intros _ _; exact Hc]. }
  repeat split.
  - subst s. generalize own_id_new. generalize new_MemStorage.
    induction Hcalls as [|c calls Hc _ IH]; intros s0 H0; [exact H0|].
    cbn [run fold_left]. apply IH. apply Hstep; assumption.
  - exact Hstep.
  - apply (update_overwrites_id c s e k j); assumption.
  - apply (update_overwrites_id c s e k j); assumption.
  - intros Hjk Hown.
    destruct (update_overwrites_id c s e k j) as [Hin _]; try assumption.
    unfold own_id in Hown. rewrite Forall_forall in Hown.
    specialize (Hown _ Hin). cbn in Hown. congruence.
Qed.

(** ** Deleting a document through the route *)

Lemma in_values_entry {K V : Type} (v : V) (m : JsMap.t K V) :
  In v (JsMap.values m) -> exists k, In (k, v) m.
Proof.
  unfold JsMap.values. rewrite in_map_iff.
  intros [[k v'] [Hv Hin]]. cbn in Hv. subst v'. exists k. exact Hin.
Qed.

Lemma reachable_documents_own_id (s : MemStorage) :
  reachable s -> own_id EProjectDocument s.
Proof.
  induction 1.
  - apply own_id_new.
  - apply own_id_exec; [assumption|].
    intros k Hk. destruct c; discriminate.
Qed.

(** In a store the server can reach, a document whose [id] property is
    [id] is the record the map holds under [id]. *)
Lemma reachable_document_by_id (s : MemStorage) (d : ProjectDocument.t)
  (id : Z) :
  reachable s ->
  In d (JsMap.values (projectDocumentStore s)) ->
  ProjectDocument.id d = Some id ->
  JsMap.get Z.eqb id (projectDocumentStore s) = Some d.
Proof.
  intros Hreach Hin Hid.
  destruct (in_values_entry _ _ Hin) as [k Hk].
  pose proof (reachable_documents_own_id s Hreach) as Hown.
  unfold own_id in Hown. cbn in Hown.
  rewrite Forall_map, Forall_forall in Hown.
  specialize (Hown _ Hk). cbn in Hown.
  assert (k = id) by congruence. subst k.
  apply (JsMapFacts.in_get_some Z.eqb Z.eqb_eq); [|exact Hk].
  exact (proj1 (reachable_ids_below_counter s Hreach EProjectDocument)).
Qed.

(** C9. In a store the server can reach, take a document whose
    [projectId] is not 0.  An authenticated DELETE /api/documents/:id
    that names the document's id answers 404 with "Document not found",
    leaves the store as it was and unlinks no file: the route looks the
    id up among [getProjectDocuments(0)] only.  And whenever the route
    answers 204, for whatever id, the document it found and deleted has
    [projectId] 0. *)
Theorem delete_document_only_of_project_0 (s : MemStorage)
  (document : ProjectDocument.t) (id : Z) :
  reachable s ->
  In document (JsMap.values (projectDocumentStore s)) ->
  ProjectDocument.id document = Some id ->
  ProjectDocument.projectId document <> Some 0 ->
  DELETE_api_documents true id s
  = ({| statusCode := 404; json := Message "Document not found" |}, s, [])
  /\ forall id',
       let '(response, s', _) := DELETE_api_documents true id' s in
       statusCode response = 204 ->
       exists d,
         JsMap.get Z.eqb id' (projectDocumentStore s) = Some d
         /\ ProjectDocument.projectId d = Some 0
         /\ JsMap.get Z.eqb id' (projectDocumentStore s') = None.
Proof.
  intros Hreach Hin Hid Hproject.
  assert (Hfound : forall id' d,
    find (fun doc => eq_Z (ProjectDocument.id doc) id')
         (getProjectDocuments 0 s) = Some d ->
    JsMap.get Z.eqb id' (projectDocumentStore s) = Some d
    /\ ProjectDocument.projectId d = Some 0).
  { intros id' d Hfind. apply find_some in Hfind. destruct Hfind as [Hd Heq].
    unfold getProjectDocuments in Hd. apply filter_In in Hd.
    destruct Hd as [Hd Hzero].
    unfold eq_Z in Heq, Hzero.
    destruct (ProjectDocument.id d) as [i|] eqn:Ei; [|discriminate].
    destruct (ProjectDocument.projectId d) as [p|] eqn:Ep; [|discriminate].
    apply Z.eqb_eq in Heq. apply Z.eqb_eq in Hzero. subst i p.
    split; [|reflexivity].
    apply reachable_document_by_id; assumption. }
  split.
  - unfold DELETE_api_documents. cbn [negb].
    destruct (find _ (getProjectDocuments 0 s)) as [d|] eqn:Hfind;
      [|reflexivity].
    exfalso. destruct (Hfound id d Hfind) as [Hget Hzero].
    rewrite (reachable_document_by_id s document id Hreach Hin Hid) in Hget.
    injection Hget as ->. contradiction.
  - intros id'. unfold DELETE_api_documents. cbn [negb].
    destruct (find _ (getProjectDocuments 0 s)) as [d|] eqn:Hfind.
    + unfold deleteProjectDocument, JsMap.delete. cbn -[Z.eqb].
      intros _. exists d. destruct (Hfound id' d Hfind) as [Hget Hzero].
      repeat split; try assumption.
      apply get_none_iff.
      pose proof (proj1 (reachable_ids_below_counter s Hreach EProjectDocument))
        as Hnd.
      cbn in Hnd. clear -Hnd.
      induction (projectDocumentStore s) as [|[k v] rest IH]; [intros []|].
      unfold JsMap.keys in Hnd. cbn [map fst] in Hnd.
      inversion Hnd as [|? ? Hnotin Hnd']; subst.
      cbn [JsMap.remove]. destruct (Z.eqb id' k) eqn:E.
      * apply Z.eqb_eq in E. subst k. exact Hnotin.
      * unfold JsMap.keys. cbn [map fst]. intros [Hk | Hk].
        -- subst k. rewrite Z.eqb_refl in E. discriminate.
        -- apply IH; assumption.
    + cbn. discriminate.
Qed.

(** ** The dashboard *)


Lemma fold_add_price (projects : list Project.t) (sum : float) :
  fold_left add_price projects sum
  = fold_left (fun acc price => PrimFloat.add acc (price_number price))
              (map Project.price projects) sum.
Proof.
  revert sum. induction projects as [|p projects IH]; intros sum;
    [reflexivity|].
  cbn [fold_left map]. rewrite IH. reflexivity.
Qed.

(** Overwriting the record under a key by one with the same image under
    [f] leaves the images of the values, in order, as they were. *)
Lemma map_values_set {V B : Type} (f : V -> B) (k : Z) (v v' : V)
  (m : JsMap.t Z V) :
  JsMap.get Z.eqb k m = Some v -> f v' = f v ->
  map f (JsMap.values (JsMap.set Z.eqb k v' m)) = map f (JsMap.values m).
Proof.
  intros Hget Hf. induction m as [|[k0 v0] rest IH]; [discriminate|].
  cbn -[Z.eqb] in Hget |- *. destruct (Z.eqb k k0).
  - injection Hget as ->. unfold JsMap.values. cbn. rewrite Hf. reflexivity.
  - unfold JsMap.values in *. cbn. rewrite (IH Hget). reflexivity.
Qed.

Section DashboardFacts.
Variable Date_parse : string -> option Z.

(** C3. The dashboard's [totalRevenue] is the sum, from 0 and in store
    order, of the [price] of every project of the project store: no
    project is left out, whatever its status.  So two stores whose
    projects carry the same prices have the same total, whatever the
    statuses; and an update that sets only the status of a project, to
    any value, leaves the total as it was. *)
Theorem total_revenue_sums_every_project (clock : nat -> Z)
  (s : MemStorage) :
  exists body,
    dashboard Date_parse clock s = Some body
    /\ totalRevenue body
       = fold_left (fun sum price => PrimFloat.add sum (price_number price))
                   (map Project.price (JsMap.values (projectStore s)))
                   0%float
    /\ (forall s2 body2,
           dashboard Date_parse clock s2 = Some body2 ->
           map Project.price (JsMap.values (projectStore s2))
           = map Project.price (JsMap.values (projectStore s)) ->
           totalRevenue body2 = totalRevenue body)
    /\ (forall id status body2,
           dashboard Date_parse clock
                     (snd (updateProject id (only_status status) s))
           = Some body2 ->
           totalRevenue body2 = totalRevenue body).
Proof.
  eexists. split; [reflexivity|]. cbn [totalRevenue].
  unfold getProjects. rewrite fold_add_price.
  split; [reflexivity|]. split.
  - intros s2 body2 H2 Hprices. injection H2 as <-. cbn [totalRevenue].
    unfold getProjects. rewrite fold_add_price, Hprices. reflexivity.
  - intros id status body2 H2. injection H2 as <-. cbn [totalRevenue].
    unfold getProjects. rewrite fold_add_price. f_equal.
    unfold updateProject.
    destruct (JsMap.get Z.eqb id (projectStore s)) as [p|] eqn:Hget;
      [|reflexivity].
    cbn -[Z.eqb]. apply (map_values_set Project.price id p); [exact Hget|].
    reflexivity.
Qed.


Lemma is_overdue_iff (t : Z) (f : FollowUp.t) :
  is_overdue Date_parse t f = true
  <-> FollowUp.status f = Some "Pending"
      /\ exists date due,
           FollowUp.dueDate f = Some date
           /\ Date_parse date = Some due /\ due < t.
Proof.
  unfold is_overdue, eq_string, Date_lt, new_Date.
  rewrite andb_true_iff. split.
  - intros [Hstatus Hdue].
    destruct (FollowUp.status f) as [st|]; [|discriminate].
    apply String.eqb_eq in Hstatus. subst st. split; [reflexivity|].
    destruct (FollowUp.dueDate f) as [date|]; [|discriminate].
    destruct (Date_parse date) as [due|] eqn:Hparse; [|discriminate].
    exists date, due. repeat split; [exact Hparse|].
    apply Z.ltb_lt. exact Hdue.
  - intros [Hstatus (date & due & Hdate & Hparse & Hlt)].
    rewrite Hstatus, Hdate, Hparse. split.
    + apply String.eqb_eq. reflexivity.
    + apply Z.ltb_lt. exact Hlt.
Qed.

(** While the clock stands at [t], the filter of the handler selects
    the follow-ups that are overdue at [t]. *)
Lemma overdue_at (t : Z) (reads : nat) (followUps : list FollowUp.t) :
  overdue Date_parse (fun _ => t) reads followUps
  = filter (is_overdue Date_parse t) followUps.
Proof.
  revert reads. induction followUps as [|f rest IH]; intros reads;
    [reflexivity|].
  cbn [overdue filter]. unfold is_overdue at 1.
  destruct (eq_string (FollowUp.status f) "Pending"); cbn [negb andb].
  - destruct (Date_lt _ t); rewrite IH; reflexivity.
  - apply IH.
Qed.

(** C4. For every store and every time [t], the dashboard computed
    while the clock reads [t] reports as [overdueFollowUps] the number
    of follow-ups that are overdue at [t]; and a follow-up is overdue
    at [t] exactly when its status is 'Pending' and its due date is a
    date strictly before [t].  A follow-up of any other status, or due
    at [t] or later, or whose due date does not parse, is not
    counted. *)
Theorem overdue_follow_ups_count (t : Z) (s : MemStorage) :
  exists body,
    dashboard Date_parse (fun _ => t) s = Some body
    /\ overdueFollowUps body
       = List.length (filter (is_overdue Date_parse t) (JsMap.values (followUpStore s)))
    /\ forall f,
         is_overdue Date_parse t f = true
         <-> FollowUp.status f = Some "Pending"
             /\ exists date due,
                  FollowUp.dueDate f = Some date
                  /\ Date_parse date = Some due /\ due < t.
Proof.
  eexists. split; [reflexivity|]. cbn [overdueFollowUps]. split.
  - rewrite overdue_at. reflexivity.
  - apply is_overdue_iff.
Qed.
End DashboardFacts.

(** ** The example scenario *)

Lemma eq_string_false (x : option string) (y : string) :
  x <> Some y -> eq_string x y = false.
Proof.
  intros Hne. destruct x as [s|]; [|reflexivity]. cbn.
  destruct (String.eqb s y) eqn:E; [|reflexivity].
  apply String.eqb_eq in E. subst s. contradiction.
Qed.

Ltac run_store :=
  cbv [createClient createProject updateProject createEmployee createUser
       new_MemStorage seedInitialData initial_fields
       set_clientId set_clientStore set_projectId set_projectStore
       set_userId set_userStore set_employeeId set_employeeStore
       snd fst clientId clientStore projectId projectStore followUpStore
       userId userStore employeeId employeeStore
       JsMap.set JsMap.get JsMap.empty JsMap.values map Z.eqb Pos.eqb
       Client.with_id Project.with_id Client.id Project.id
       Project.spread only_status spread1
       dashboard GET_api_analytics_dashboard getProjects getClients
       getFollowUps negb json
       totalRevenue activeProjects fold_left filter add_price];
  cbn [Project.price Project.status].

(** C8, as the code has it.  The first two steps of the scenario are the
    constructor's own: seeding creates the employee "John Doe" (Manager)
    with id 1 and the user "admin" linked to employee 1, and the store so
    seeded is the constructed store.  On the constructed store, creating
    a client yields id 1; after creating a project priced at 500 (whose
    status is not "In Progress") the dashboard reports [totalRevenue] 500
    and [activeProjects] 0; and once the project's status is set to
    "In Progress" it reports [activeProjects] 1, with [totalRevenue]
    still 500. *)
Theorem example_scenario (Date_parse : string -> option Z) (clock : nat -> Z)
  (client : Client.t) (project : Project.t) :
  Project.price project = Some 500%float ->
  Project.status project <> Some "In Progress" ->
  let (employee, s0) := createEmployee seed_employee initial_fields in
  let (user, s1) := createUser seed_user s0 in
  Employee.id employee = Some 1
  /\ Employee.name employee = Some "John Doe"
  /\ Employee.role employee = Some "Manager"
  /\ User.username user = Some "admin"
  /\ User.employeeId user = Some (notnull 1)
  /\ getEmployee 1 s1 = Some employee
  /\ getUserByUsername "admin" s1 = Some user
  /\ s1 = new_MemStorage
  /\ let (c, s2) := createClient client new_MemStorage in
     Client.id c = Some 1
     /\ let (p, s3) := createProject project s2 in
        Project.id p = Some 1
        /\ (exists body,
               dashboard Date_parse clock s3 = Some body
               /\ totalRevenue body = 500%float
               /\ activeProjects body = 0%nat)
        /\ let (updated, s4) :=
             updateProject 1 (only_status "In Progress") s3 in
           updated <> None
           /\ exists body,
                dashboard Date_parse clock s4 = Some body
                /\ totalRevenue body = 500%float
                /\ activeProjects body = 1%nat.
Proof.
  intros Hprice Hstatus.
  repeat (split; [reflexivity|]).
  run_store.
  rewrite Hprice. rewrite (eq_string_false _ _ Hstatus).
  split; [eexists; repeat split|].
  split; [discriminate|].
  eexists. repeat split.
Qed.

(** On the constructed store the employee counter already stands at 2:
    creating the scenario's employee there yields id 2, not 1. *)
Lemma create_employee_on_new_store :
  Employee.id (fst (createEmployee seed_employee new_MemStorage)) = Some 2
  /\ getEmployee 1 new_MemStorage = Some (Employee.with_id seed_employee 1).
Proof. split; reflexivity. Qed.

(** ** Worked instances *)

(** C1 at the constructed store: a document created for project 7 is
    returned with id 1 and the input's other properties, held under 1
    and listed under project 7. *)
Lemma create_then_get_witness :
  exists i,
    let (r, s') := createProjectDocument document_7 new_MemStorage in
    ProjectDocument.id r = Some i
    /\ r = ProjectDocument.mk (Some i) (Some 7)
                              (Some "1700000000000_plan.pdf")
                              (Some "uploads/1700000000000_plan.pdf")
                              (Some 1700000000000)
    /\ JsMap.get Z.eqb i (projectDocumentStore s') = Some r
    /\ In r (getProjectDocuments 7 s').
Proof.
  destruct (proj2 (proj2 (proj2 (proj2 (proj2 (proj2 (proj2
             (create_then_get new_MemStorage))))))) document_7)
    as [i H].
  exists i.
  destruct (createProjectDocument document_7 new_MemStorage) as [r s'].
  destruct H as (H1 & H2 & H3 & H4).
  repeat split; try assumption.
  apply H4. reflexivity.
Defined.

(** C2 at the constructed store, whose client map is empty. *)
Lemma update_missing_id_witness :
  updateClient 7 acme_co new_MemStorage = (None, new_MemStorage).
Proof.
  apply (proj1 (update_missing_id new_MemStorage 7)).
  intros H. exact H.
Defined.

(** C6 at the constructed store, for the pair (1, 1). *)
Lemma add_service_to_client_idempotent_witness :
  let pair := ClientService.mk 1 1 in
  let once := snd (addServiceToClient pair new_MemStorage) in
  let twice := snd (addServiceToClient pair once) in
  twice = once
  /\ filter (same_pair pair) (JsMap.values (clientServiceStore twice))
     = [pair].
Proof.
  intros pair once twice.
  destruct (add_service_to_client_idempotent new_MemStorage pair)
    as (H1 & _ & H3).
  split; [exact H1|].
  exact (proj1 (H3 reachable_new)).
Defined.


(** C8 for the scenario's client and project. *)
Lemma example_scenario_witness :
  let s3 := snd (createProject project_500
                   (snd (createClient acme_co new_MemStorage))) in
  (exists body,
      dashboard (fun _ => None) (fun _ => 0) s3 = Some body
      /\ totalRevenue body = 500%float /\ activeProjects body = 0%nat)
  /\ exists body,
       dashboard (fun _ => None) (fun _ => 0)
                 (snd (updateProject 1 (only_status "In Progress") s3))
       = Some body
       /\ totalRevenue body = 500%float /\ activeProjects body = 1%nat.
Proof.
  intros s3.
  assert (Hprice : Project.price project_500 = Some 500%float)
    by reflexivity.
  assert (Hstatus : Project.status project_500 <> Some "In Progress")
    by discriminate.
  pose proof (example_scenario (fun _ => None) (fun _ => 0) acme_co
                project_500 Hprice Hstatus) as H.
  hnf in H.
  destruct H as (_ & _ & _ & _ & _ & _ & _ & _ & H).
  hnf in H. destruct H as (_ & H).
  hnf in H. destruct H as (_ & Hbefore & H).
  split; [exact Hbefore|].
  hnf in H. destruct H as (_ & Hafter). exact Hafter.
Defined.

(** C9 for a document of project 7, stored under id 1. *)
Lemma delete_document_only_of_project_0_witness :
  let s := exec (CreateProjectDocument document_7) new_MemStorage in
  DELETE_api_documents true 1 s
  = ({| statusCode := 404; json := Message "Document not found" |}, s, []).
Proof.
  intros s.
  refine (proj1 (delete_document_only_of_project_0 s
                   (ProjectDocument.with_id document_7 1) 1 _ _ _ _)).
  - apply reachable_exec. apply reachable_new.
  - left. reflexivity.
  - reflexivity.
  - discriminate.
Defined.

(** C10 along a history whose update carries no [id], and for an update
    that does carry one. *)
Lemma stored_under_own_id_witness :
  let calls := [CreateClient acme_co; UpdateClient 1 acme_co] in
  let s := run calls new_MemStorage in
  own_id EClient s
  /\ In (1, Some 5)
        (id_fields EClient
           (exec (UpdateClient 1 (Client.with_id acme_co 5)) s)).
Proof.
  intros calls s.
  assert (Hcalls : Forall (fun c => payload_id c = None) calls)
    by (repeat constructor).
  destruct (stored_under_own_id calls Hcalls) as (Hown & _ & Hupdate).
  split; [apply Hown|].
  apply (Hupdate (UpdateClient 1 (Client.with_id acme_co 5)) EClient 1 5).
  - reflexivity.
  - reflexivity.
  - left. reflexivity.
Defined.

(** * Further properties of the store *)

(** ** More facts about [JsMap] *)

Module JsMapMore.
Import JsMap.

Section Facts.
Context {K V : Type}.
Variable eqb : K -> K -> bool.
Hypothesis eqb_eq : forall a b, eqb a b = true <-> a = b.

Lemma get_remove_same (k : K) (m : JsMap.t K V) :
  NoDup (keys m) -> get eqb k (remove eqb k m) = None.
Proof.
  intros Hnd. apply (JsMapFacts.get_none_not_in eqb eqb_eq).
  induction m as [|[k' v'] rest IH]; [intros []|].
  unfold keys in Hnd. cbn [map fst] in Hnd.
  inversion Hnd as [|? ? Hnotin Hnd']; subst.
  cbn [remove]. destruct (eqb k k') eqn:E.
  - apply eqb_eq in E. subst k'. exact Hnotin.
  - unfold keys. cbn [map fst]. intros [Hk | Hk].
    + subst k'. assert (eqb k k = true) by (apply eqb_eq; reflexivity).
      congruence.
    + apply IH; assumption.
Qed.

Lemma get_remove_other (k k0 : K) (m : JsMap.t K V) :
  k0 <> k -> get eqb k0 (remove eqb k m) = get eqb k0 m.
Proof.
  intros Hne. induction m as [|[k' v'] rest IH]; [reflexivity|].
  cbn [remove get]. destruct (eqb k k') eqn:E.
  - apply eqb_eq in E. subst k'.
    destruct (eqb k0 k) eqn:E0; [|reflexivity].
    apply eqb_eq in E0. contradiction.
  - cbn [get]. destruct (eqb k0 k'); [reflexivity | exact IH].
Qed.



Lemma values_set_fresh (k : K) (v : V) (m : JsMap.t K V) :
  get eqb k m = None -> values (set eqb k v m) = values m ++ [v].
Proof.
  intros H. rewrite (JsMapFacts.set_fresh eqb k v m H).
  unfold values. rewrite map_app. reflexivity.
Qed.

Lemma has_true_iff (k : K) (m : JsMap.t K V) :
  has eqb k m = true <-> get eqb k m <> None.
Proof.
  unfold has. destruct (get eqb k m); split; congruence.
Qed.

Lemma has_remove_same (k : K) (m : JsMap.t K V) :
  NoDup (keys m) -> has eqb k (remove eqb k m) = false.
Proof.
  intros Hnd. unfold has. rewrite (get_remove_same k m Hnd). reflexivity.
Qed.

Lemma remove_twice (k : K) (m : JsMap.t K V) :
  NoDup (keys m) -> remove eqb k (remove eqb k m) = remove eqb k m.
Proof.
  intros Hnd. apply JsMapFacts.remove_absent. apply get_remove_same.
  exact Hnd.
Qed.

Lemma has_false_remove (k : K) (m : JsMap.t K V) :
  has eqb k m = false -> remove eqb k m = m.
Proof.
  unfold has. destruct (get eqb k m) eqn:E; [discriminate|].
  intros _. apply JsMapFacts.remove_absent. exact E.
Qed.
End Facts.

End JsMapMore.

(** ** Deleting *)

Lemma set_store_same (s : MemStorage) :
  set_clientStore (clientStore s) s = s
  /\ set_serviceStore (serviceStore s) s = s
  /\ set_projectStore (projectStore s) s = s
  /\ set_projectDocumentStore (projectDocumentStore s) s = s
  /\ set_newClientContactStore (newClientContactStore s) s = s
  /\ set_followUpStore (followUpStore s) s = s
  /\ set_employeeStore (employeeStore s) s = s
  /\ set_clientServiceStore (clientServiceStore s) s = s
  /\ set_employeeClientStore (employeeClientStore s) s = s.
Proof. destruct s. repeat split. Qed.

(** The contract of [delete] for a getter and a delete that read and
    remove in the same map, given that the map has no repeated key. *)
Ltac delete_contract_tac Hnd Hsame :=
  unfold delete_contract; unfold_methods; cbn -[Z.eqb];
  repeat split;
  [ apply (JsMapMore.has_true_iff Z.eqb)
  | apply (JsMapMore.has_true_iff Z.eqb)
  | apply (JsMapMore.get_remove_same Z.eqb Z.eqb_eq); exact Hnd
  | intros k' Hk'; apply (JsMapMore.get_remove_other Z.eqb Z.eqb_eq);
    exact Hk'
  | unfold JsMap.has;
    rewrite (JsMapMore.get_remove_same Z.eqb Z.eqb_eq) by exact Hnd;
    rewrite (JsMapFacts.remove_absent Z.eqb)
      by (apply (JsMapMore.get_remove_same Z.eqb Z.eqb_eq); exact Hnd);
    reflexivity
  | unfold JsMap.has;
    let E := fresh "E" in
    destruct (JsMap.get Z.eqb _ _) eqn:E; [discriminate|];
    intros _; rewrite (JsMapFacts.remove_absent Z.eqb) by exact E;
    apply Hsame ].

(** X1. In every store the server can reach, each of the seven deletes
    keeps the contract of [delete]: it reports [true] exactly when a
    record was stored under the id; afterwards no record is; every other
    record is as before; a second delete of the same id reports [false]
    and changes nothing; and a delete that reports [false] has left the
    whole store as it was. *)
Theorem delete_twice (s : MemStorage) (k : Z) :
  reachable s ->
  delete_contract getClient deleteClient s k
  /\ delete_contract getService deleteService s k
  /\ delete_contract getProject deleteProject s k
  /\ delete_contract
       (fun id this => JsMap.get Z.eqb id (projectDocumentStore this))
       deleteProjectDocument s k
  /\ delete_contract getNewClientContact deleteNewClientContact s k
  /\ delete_contract getFollowUp deleteFollowUp s k
  /\ delete_contract getEmployee deleteEmployee s k.
Proof.
  intros Hreach.
  pose proof (reachable_ids_below_counter s Hreach) as Hinv.
  pose proof (set_store_same s) as Hsame.
  repeat match goal with |- delete_contract _ _ _ _ /\ _ => split end.
  - delete_contract_tac (proj1 (Hinv EClient)) Hsame.
  - delete_contract_tac (proj1 (Hinv EService)) Hsame.
  - delete_contract_tac (proj1 (Hinv EProject)) Hsame.
  - delete_contract_tac (proj1 (Hinv EProjectDocument)) Hsame.
  - delete_contract_tac (proj1 (Hinv ENewClientContact)) Hsame.
  - delete_contract_tac (proj1 (Hinv EFollowUp)) Hsame.
  - delete_contract_tac (proj1 (Hinv EEmployee)) Hsame.
Qed.

(** ** Creating *)

Lemma counter_not_a_key (s : MemStorage) (e : entity) :
  ids_below_counter s -> ~ In (counter_of e s) (keys_of e s).
Proof.
  intros Hinv Hin. apply (proj2 (Hinv e)) in Hin. lia.
Qed.

Ltac create_contract_tac Hfresh :=
  unfold create_contract; unfold_methods; cbn -[Z.eqb];
  apply get_none_iff in Hfresh; cbn in Hfresh;
  split;
  [ apply (JsMapMore.values_set_fresh Z.eqb); exact Hfresh
  | let k := fresh "k" in
    let v := fresh "v" in
    let H := fresh "H" in
    intros k v H; rewrite get_set_other_id; [exact H|];
    intros ->; unfold getUser, getClient, getService, getProject,
      getNewClientContact, getFollowUp, getEmployee in H; congruence ].

(** X2. In every store the server can reach, a create adds its record at
    the end of the table's listing and overwrites nothing: every record
    that [get] returned before the create is returned after it,
    unchanged. *)
Theorem create_appends (s : MemStorage) :
  reachable s ->
  (forall u, create_contract (fun this => JsMap.values (userStore this))
                             getUser createUser s u)
  /\ (forall c, create_contract getClients getClient createClient s c)
  /\ (forall c, create_contract getServices getService createService s c)
  /\ (forall p, create_contract getProjects getProject createProject s p)
  /\ (forall d, create_contract
                  (fun this => JsMap.values (projectDocumentStore this))
                  (fun id this =>
                     JsMap.get Z.eqb id (projectDocumentStore this))
                  createProjectDocument s d)
  /\ (forall c, create_contract getNewClientContacts getNewClientContact
                                createNewClientContact s c)
  /\ (forall f, create_contract getFollowUps getFollowUp createFollowUp s f)
  /\ (forall e, create_contract getEmployees getEmployee createEmployee s e).
Proof.
  intros Hreach.
  pose proof (reachable_ids_below_counter s Hreach) as Hinv.
  pose proof (fun e => counter_not_a_key s e Hinv) as Hfresh.
  repeat match goal with |- (forall _, create_contract _ _ _ _ _) /\ _ =>
    split end; intros x.
  - pose proof (Hfresh EUser) as H0. create_contract_tac H0.
  - pose proof (Hfresh EClient) as H0. create_contract_tac H0.
  - pose proof (Hfresh EService) as H0. create_contract_tac H0.
  - pose proof (Hfresh EProject) as H0. create_contract_tac H0.
  - pose proof (Hfresh EProjectDocument) as H0. create_contract_tac H0.
  - pose proof (Hfresh ENewClientContact) as H0. create_contract_tac H0.
  - pose proof (Hfresh EFollowUp) as H0. create_contract_tac H0.
  - pose proof (Hfresh EEmployee) as H0. create_contract_tac H0.
Qed.

(** ** Listing order *)

Lemma sorted_snoc (l : list Z) (n : Z) :
  StronglySorted Z.lt l -> (forall k, In k l -> k < n) ->
  StronglySorted Z.lt (l ++ [n]).
Proof.
  induction 1 as [|a l Hl IH Ha]; intros Hlt; cbn.
  - repeat constructor.
  - constructor.
    + apply IH. intros k Hk. apply Hlt. right. exact Hk.
    + apply Forall_app. split; [exact Ha|].
      constructor; [|constructor]. apply Hlt. left. reflexivity.
Qed.

Lemma sorted_keys_remove {V : Type} (k : Z) (m : JsMap.t Z V) :
  StronglySorted Z.lt (JsMap.keys m) ->
  StronglySorted Z.lt (JsMap.keys (JsMap.remove Z.eqb k m)).
Proof.
  induction m as [|[k' v'] rest IH]; [auto|].
  unfold JsMap.keys. cbn [map fst JsMap.remove]. intros Hs.
  inversion Hs as [|? ? Hrest Hall]; subst.
  destruct (Z.eqb k k'); [exact Hrest|].
  cbn [map fst]. constructor; [apply IH; exact Hrest|].
  rewrite Forall_forall in *. intros x Hx. apply Hall.
  apply (JsMapFacts.in_keys_remove Z.eqb x k rest). exact Hx.
Qed.

Lemma sorted_keys_set {V : Type} (k : Z) (v : V) (m : JsMap.t Z V) :
  StronglySorted Z.lt (JsMap.keys m) ->
  (JsMap.get Z.eqb k m = None -> forall k', In k' (JsMap.keys m) -> k' < k) ->
  StronglySorted Z.lt (JsMap.keys (JsMap.set Z.eqb k v m)).
Proof.
  intros Hs Hlt. rewrite (JsMapFacts.keys_set Z.eqb k v m). unfold JsMap.has.
  destruct (JsMap.get Z.eqb k m) eqn:E; [exact Hs|].
  apply sorted_snoc; [exact Hs | apply Hlt; reflexivity].
Qed.

(** The keys of every table are in strictly increasing order. *)
Lemma keys_sorted_exec (c : call) (s : MemStorage) :
  ids_below_counter s ->
  (forall e, StronglySorted Z.lt (keys_of e s)) ->
  forall e, StronglySorted Z.lt (keys_of e (exec c s)).
Proof.
  intros Hinv Hsorted e.
  pose proof (Hsorted e) as Hs. pose proof (proj2 (Hinv e)) as Hlt.
  by_call c; destruct e; cbn -[Z.eqb] in *; try exact Hs.
  all: first
    [ apply sorted_keys_remove; exact Hs
    | apply sorted_keys_set; [exact Hs|];
      first [ intros _; exact Hlt | intros Habs; congruence ] ].
Qed.

(** X3. In every store the server can reach, the records of every table
    are held in strictly increasing order of the ids they are stored
    under: the listings ([getClients], [getProjects], ...) give the
    records in the order they were created, whatever was updated or
    deleted since. *)
Theorem listings_in_id_order (s : MemStorage) (e : entity) :
  reachable s -> StronglySorted Z.lt (keys_of e s).
Proof.
  intros Hreach. revert e. induction Hreach as [|c s Hreach IH].
  - intros e. destruct e; cbn; repeat constructor.
  - apply keys_sorted_exec; [|exact IH].
    apply reachable_ids_below_counter. exact Hreach.
Qed.

(** ** Updating *)


Lemma spread1_none {A : Type} (a : option A) : spread1 a None = a.
Proof. reflexivity. Qed.



(** ** Users *)

Lemma find_app_some {A : Type} (f : A -> bool) (l l' : list A) (a : A) :
  find f l = Some a -> find f (l ++ l') = Some a.
Proof.
  induction l as [|x l IH]; [discriminate|].
  cbn. destruct (f x); [auto | exact IH].
Qed.

(** No call removes or alters a user: the only call that touches the
    user map is [createUser], which appends. *)
Lemma users_kept (c : call) (s : MemStorage) :
  ids_below_counter s ->
  exists added, JsMap.values (userStore (exec c s))
                = JsMap.values (userStore s) ++ added
  /\ forall k u, getUser k s = Some u -> getUser k (exec c s) = Some u.
Proof.
  intros Hinv.
  pose proof (counter_not_a_key s EUser Hinv) as Hfresh.
  apply get_none_iff in Hfresh. cbn in Hfresh.
  unfold getUser.
  by_call c; cbn -[Z.eqb];
    try (exists []; rewrite app_nil_r; split; [reflexivity | auto]).
  exists [User.with_id user (userId s)]. split.
  - apply (JsMapMore.values_set_fresh Z.eqb). exact Hfresh.
  - intros k u H. rewrite get_set_other_id; [exact H|].
    intros ->. congruence.
Qed.

(** X5. The store has no method that deletes or updates a user.  In
    every store the server can reach, and for every call: a user that
    [getUser] returns is returned, unchanged, after the call; a username
    that [getUserByUsername] resolves keeps resolving to the same user,
    also when a later [createUser] takes the same username again; and
    the account the constructor seeded is still there: [getUser(1)] and
    [getUserByUsername("admin")] return the seeded user "admin", linked
    to employee 1. *)
Theorem users_are_permanent (s : MemStorage) :
  reachable s ->
  getUser 1 s = Some (User.with_id seed_user 1)
  /\ getUserByUsername "admin" s = Some (User.with_id seed_user 1)
  /\ forall c,
       (forall k u, getUser k s = Some u -> getUser k (exec c s) = Some u)
       /\ (forall name u,
              getUserByUsername name s = Some u ->
              getUserByUsername name (exec c s) = Some u).
Proof.
  intros Hreach.
  assert (Hstep : forall s0 c, ids_below_counter s0 ->
            (forall k u, getUser k s0 = Some u ->
                         getUser k (exec c s0) = Some u)
            /\ (forall name u,
                   getUserByUsername name s0 = Some u ->
                   getUserByUsername name (exec c s0) = Some u)).
  { intros s0 c Hinv. destruct (users_kept c s0 Hinv) as (added & Hval & Hget).
    split; [exact Hget|].
    intros name u H. unfold getUserByUsername in *. rewrite Hval.
    apply find_app_some. exact H. }
  assert (Hadmin : getUser 1 s = Some (User.with_id seed_user 1)
                   /\ getUserByUsername "admin" s
                      = Some (User.with_id seed_user 1)).
  { induction Hreach as [|c s Hreach IH].
    - split; reflexivity.
    - destruct IH as [IH1 IH2].
      destruct (Hstep s c (reachable_ids_below_counter s Hreach)) as [H1 H2].
      split; [apply H1; exact IH1 | apply H2; exact IH2]. }
  destruct Hadmin as [Ha1 Ha2]. split; [exact Ha1|]. split; [exact Ha2|].
  intros c. apply Hstep. apply reachable_ids_below_counter. exact Hreach.
Qed.

Lemma reachable_users_own_id (s : MemStorage) :
  reachable s -> own_id EUser s.
Proof.
  induction 1.
  - apply own_id_new.
  - apply own_id_exec; [assumption|].
    intros k Hk. destruct c; discriminate.
Qed.

(** X6. [createUser] does not check that the username is free.  In every
    store the server can reach, creating a user under a username that
    already resolves succeeds: the new user is stored under a fresh id
    with that same username, it is not the user the name resolved to,
    and [getUserByUsername] goes on returning the older user, so the new
    account cannot be found by its name. *)
Theorem duplicate_username_is_shadowed (s : MemStorage) (name : string)
  (older newer : User.t) :
  reachable s ->
  getUserByUsername name s = Some older ->
  User.username newer = Some name ->
  let (created, s1) := createUser newer s in
  User.username created = Some name
  /\ (exists i, User.id created = Some i /\ getUser i s1 = Some created
               /\ getUser i s = None)
  /\ created <> older
  /\ In older (JsMap.values (userStore s1))
  /\ In created (JsMap.values (userStore s1))
  /\ getUserByUsername name s1 = Some older.
Proof.
  intros Hreach Holder Hname.
  pose proof (reachable_ids_below_counter s Hreach) as Hinv.
  pose proof (counter_not_a_key s EUser Hinv) as Hfresh.
  apply get_none_iff in Hfresh. cbn in Hfresh.
  assert (Hvalues : JsMap.values
                      (JsMap.set Z.eqb (userId s)
                                 (User.with_id newer (userId s)) (userStore s))
                    = JsMap.values (userStore s)
                      ++ [User.with_id newer (userId s)])
    by (apply (JsMapMore.values_set_fresh Z.eqb); exact Hfresh).
  assert (Hin : In older (JsMap.values (userStore s))).
  { unfold getUserByUsername in Holder. apply find_some in Holder.
    apply Holder. }
  unfold createUser. cbn -[Z.eqb]. repeat apply conj.
  - exact Hname.
  - exists (userId s). unfold getUser. cbn -[Z.eqb].
    repeat split; [apply get_set_id | exact Hfresh].
  - intros Heq.
    destruct (in_values_entry _ _ Hin) as [k Hk].
    pose proof (reachable_users_own_id s Hreach) as Hown.
    unfold own_id in Hown. cbn in Hown.
    rewrite Forall_map, Forall_forall in Hown.
    specialize (Hown _ Hk). cbn in Hown.
    rewrite <- Heq in Hown. cbn in Hown. injection Hown as Hown.
    assert (Hkey : In k (keys_of EUser s)).
    { cbn. unfold JsMap.keys. change k with (fst (k, older)).
      apply in_map. exact Hk. }
    apply (proj2 (Hinv EUser)) in Hkey. cbn in Hkey. lia.
  - rewrite Hvalues. apply in_or_app. left. exact Hin.
  - rewrite Hvalues. apply in_or_app. right. left. reflexivity.
  - unfold getUserByUsername. cbn -[Z.eqb]. rewrite Hvalues.
    apply find_app_some. exact Holder.
Qed.

(** ** Composite keys *)

Lemma string_of_uint_no_dash (d : Decimal.uint) (b : string) :
  split_at_dash (NilEmpty.string_of_uint d ++ String "-" b)%string
  = Some (NilEmpty.string_of_uint d, b).
Proof.
  induction d; cbn; try rewrite IHd; reflexivity.
Qed.

Lemma split_key_digits (d : Decimal.uint) (b : string) :
  d <> Decimal.Nil ->
  split_key (NilEmpty.string_of_uint d ++ String "-" b)%string
  = Some (NilEmpty.string_of_uint d, b).
Proof.
  intros Hd. rewrite <- (string_of_uint_no_dash d b).
  destruct d; [contradiction | reflexivity ..].
Qed.

Lemma Number_toString_shape (n : Z) :
  exists d, d <> Decimal.Nil
            /\ (Number_toString n = NilEmpty.string_of_uint d
                \/ Number_toString n
                   = String "-" (NilEmpty.string_of_uint d)).
Proof.
  unfold Number_toString. destruct n as [|p|p]; cbn.
  - exists (Decimal.D0 Decimal.Nil). split; [discriminate | left; reflexivity].
  - exists (Pos.to_uint p). split; [apply DecimalPos.Unsigned.to_uint_nonnil|].
    left. unfold NilZero.string_of_uint.
    destruct (Pos.to_uint p) eqn:E; try reflexivity.
    exfalso. apply (DecimalPos.Unsigned.to_uint_nonnil p). exact E.
  - exists (Pos.to_uint p). split; [apply DecimalPos.Unsigned.to_uint_nonnil|].
    right. unfold NilZero.string_of_uint.
    destruct (Pos.to_uint p) eqn:E; try reflexivity.
    exfalso. apply (DecimalPos.Unsigned.to_uint_nonnil p). exact E.
Qed.

Lemma Number_toString_inj (a b : Z) :
  Number_toString a = Number_toString b -> a = b.
Proof.
  unfold Number_toString. intros H.
  assert (Hint : forall n, NilZero.int_of_string
                             (NilZero.string_of_int (Z.to_int n))
                           = Some (Z.to_int n)).
  { intros n. apply NilZero.isi; destruct n; cbn; try discriminate;
      intros [= E]; apply (DecimalPos.Unsigned.to_uint_nonnil _ E). }
  apply DecimalZ.to_int_inj.
  pose proof (Hint a) as Ha. rewrite H, Hint in Ha. congruence.
Qed.

Lemma split_key_pair_key (a b : Z) :
  split_key (pair_key a b) = Some (Number_toString a, Number_toString b).
Proof.
  unfold pair_key.
  destruct (Number_toString_shape a) as (d & Hd & [E | E]); rewrite E.
  - apply split_key_digits. exact Hd.
  - cbn [append split_key Ascii.eqb Bool.eqb].
    rewrite string_of_uint_no_dash. reflexivity.
Qed.

Lemma pair_key_inj (a b c d : Z) :
  pair_key a b = pair_key c d -> a = c /\ b = d.
Proof.
  intros H. pose proof (split_key_pair_key a b) as H1.
  rewrite H, split_key_pair_key in H1. injection H1 as Hac Hbd.
  split; apply Number_toString_inj; congruence.
Qed.

(** X7. For ids that are safe integers (magnitude below 2^53, where
    [String(n)] is the decimal numeral), a composite key reads back:
    splitting [`${a}-${b}`] at the dash that separates the two numerals
    gives the numerals of [a] and of [b], whatever their signs.  So two
    pairs of such ids with the same key are the same pair: no two
    distinct associations collide on a key. *)
Theorem pair_key_reads_back (a b : Z) :
  safe_integer a -> safe_integer b ->
  split_key (pair_key a b) = Some (Number_toString a, Number_toString b)
  /\ forall c d, safe_integer c -> safe_integer d ->
                 pair_key a b = pair_key c d -> a = c /\ b = d.
Proof.
  intros _ _.
  split; [apply split_key_pair_key | intros c d _ _; apply pair_key_inj].
Qed.

(** ** Association tables *)

Section AssociationTable.
(** Facts about a keyed key_of map whose key function lets no two values
    collide. *)
Context {V : Type}.
Variable key_of : V -> string.
Hypothesis key_of_inj : forall a b, key_of a = key_of b -> a = b.

Lemma keyed_in_values (m : JsMap.t string V) (q : V) :
  keyed key_of m ->
  In q (JsMap.values m) <-> JsMap.get String.eqb (key_of q) m = Some q.
Proof.
  intros [Hnd Hall]. split.
  - intros Hin. destruct (in_values_entry _ _ Hin) as [k Hk].
    rewrite Forall_forall in Hall. pose proof (Hall _ Hk) as Hkey.
    cbn in Hkey. subst k.
    apply (JsMapFacts.in_get_some String.eqb String.eqb_eq); assumption.
  - intros Hget. apply (JsMapFacts.get_some_in String.eqb String.eqb_eq) in Hget.
    unfold JsMap.values. change q with (snd (key_of q, q)).
    apply in_map. exact Hget.
Qed.

Lemma keyed_set (m : JsMap.t string V) (p : V) :
  keyed key_of m -> keyed key_of (JsMap.set String.eqb (key_of p) p m).
Proof.
  intros [Hnd Hall]. split.
  - apply (JsMapFacts.NoDup_keys_set String.eqb String.eqb_eq). exact Hnd.
  - apply (JsMapFacts.Forall_set String.eqb String.eqb_eq);
      [exact Hall | reflexivity].
Qed.

Lemma keyed_remove (m : JsMap.t string V) (k : string) :
  keyed key_of m -> keyed key_of (JsMap.remove String.eqb k m).
Proof.
  intros [Hnd Hall]. split.
  - apply JsMapFacts.NoDup_keys_remove. exact Hnd.
  - apply JsMapFacts.Forall_remove. exact Hall.
Qed.

(** Adding [p] is insertion into a set. *)
Lemma keyed_values_set (m : JsMap.t string V) (p q : V) :
  keyed key_of m ->
  In q (JsMap.values (JsMap.set String.eqb (key_of p) p m))
  <-> q = p \/ In q (JsMap.values m).
Proof.
  intros Hm.
  rewrite (keyed_in_values _ q (keyed_set m p Hm)).
  rewrite (keyed_in_values m q Hm).
  destruct (string_dec (key_of q) (key_of p)) as [E | E].
  - rewrite E, (JsMapFacts.get_set_same String.eqb String.eqb_eq).
    apply key_of_inj in E. subst q. split; [auto | reflexivity].
  - rewrite (JsMapFacts.get_set_other String.eqb String.eqb_eq) by exact E.
    split; [auto|]. intros [-> | H]; [contradiction | exact H].
Qed.

(** Removing under the key of [p] is removal of [p] from a set. *)
Lemma keyed_values_remove (m : JsMap.t string V) (p q : V) :
  keyed key_of m ->
  In q (JsMap.values (JsMap.remove String.eqb (key_of p) m))
  <-> q <> p /\ In q (JsMap.values m).
Proof.
  intros Hm.
  rewrite (keyed_in_values _ q (keyed_remove m (key_of p) Hm)).
  rewrite (keyed_in_values m q Hm).
  destruct (string_dec (key_of q) (key_of p)) as [E | E].
  - rewrite E, (JsMapMore.get_remove_same String.eqb String.eqb_eq)
      by apply Hm.
    apply key_of_inj in E. subst q. split; [discriminate|].
    intros [H _]. contradiction.
  - rewrite (JsMapMore.get_remove_other String.eqb String.eqb_eq) by exact E.
    split; [|intros [_ H]; exact H].
    intros H. split; [|exact H]. intros ->. contradiction.
Qed.

(** [has] under the key of [p] tells whether [p] is in the set. *)
Lemma keyed_has (m : JsMap.t string V) (p : V) :
  keyed key_of m ->
  JsMap.has String.eqb (key_of p) m = true <-> In p (JsMap.values m).
Proof.
  intros Hm. rewrite (keyed_in_values m p Hm).
  rewrite (JsMapMore.has_true_iff String.eqb). split.
  - destruct (JsMap.get String.eqb (key_of p) m) as [v|] eqn:E;
      [|congruence].
    intros _. f_equal.
    apply (JsMapFacts.get_some_in String.eqb String.eqb_eq) in E.
    destruct Hm as [_ Hall]. rewrite Forall_forall in Hall.
    specialize (Hall _ E). cbn in Hall. apply key_of_inj. symmetry.
    exact Hall.
  - congruence.
Qed.
End AssociationTable.

Lemma client_service_key_inj (a b : ClientService.t) :
  client_service_key a = client_service_key b -> a = b.
Proof.
  destruct a as [a1 a2], b as [b1 b2]. unfold client_service_key. cbn.
  intros H. apply pair_key_inj in H.
  destruct H as [-> ->]. reflexivity.
Qed.

Lemma employee_client_key_inj (a b : EmployeeClient.t) :
  employee_client_key a = employee_client_key b -> a = b.
Proof.
  destruct a as [a1 a2], b as [b1 b2]. unfold employee_client_key. cbn.
  intros H. apply pair_key_inj in H.
  destruct H as [-> ->]. reflexivity.
Qed.

Lemma employee_clients_keyed_exec (c : call) (s : MemStorage) :
  employee_clients_keyed s -> employee_clients_keyed (exec c s).
Proof.
  intros [Hnd Hall]. unfold employee_clients_keyed.
  by_call c; cbn -[String.eqb]; try (split; assumption); split.
  - apply (JsMapFacts.NoDup_keys_set String.eqb String.eqb_eq). exact Hnd.
  - apply (JsMapFacts.Forall_set String.eqb String.eqb_eq); [exact Hall|].
    reflexivity.
  - apply JsMapFacts.NoDup_keys_remove. exact Hnd.
  - apply JsMapFacts.Forall_remove. exact Hall.
Qed.

Lemma reachable_employee_clients_keyed (s : MemStorage) :
  reachable s -> employee_clients_keyed s.
Proof.
  induction 1.
  - split; cbn; constructor.
  - apply employee_clients_keyed_exec. assumption.
Qed.

Lemma reachable_keyed (s : MemStorage) :
  reachable s ->
  keyed client_service_key (clientServiceStore s)
  /\ keyed employee_client_key (employeeClientStore s).
Proof.
  intros H. split.
  - exact (reachable_client_services_keyed s H).
  - exact (reachable_employee_clients_keyed s H).
Qed.

(** The listings of the two association tables, as membership in the
    table. *)
Lemma in_getClientServices (q : ClientService.t) (s : MemStorage) :
  In q (getClientServices (ClientService.clientId q) s)
  <-> In q (JsMap.values (clientServiceStore s)).
Proof.
  unfold getClientServices. rewrite filter_In, Z.eqb_refl. tauto.
Qed.

Lemma in_getClientsAssignedToEmployee (e c : Z) (s : MemStorage) :
  In c (getClientsAssignedToEmployee e s)
  <-> In (EmployeeClient.mk e c) (JsMap.values (employeeClientStore s)).
Proof.
  unfold getClientsAssignedToEmployee. rewrite in_map_iff. split.
  - intros [[e' c'] [Hc Hin]]. apply filter_In in Hin.
    destruct Hin as [Hin He]. cbn in Hc, He. apply Z.eqb_eq in He.
    subst. exact Hin.
  - intros Hin. exists (EmployeeClient.mk e c). split; [reflexivity|].
    apply filter_In. split; [exact Hin|]. cbn. apply Z.eqb_refl.
Qed.

(** X8. In every store the server can reach, the two association tables
    behave as sets of pairs.  Adding a pair makes it listed and leaves
    every other pair listed or not as it was; removing a pair reports
    whether it was listed, unlists it and leaves every other pair as it
    was.  This holds for [addServiceToClient] and
    [removeServiceFromClient] as seen through [getClientServices], and
    for [assignClientToEmployee] and [unassignClientFromEmployee] as seen
    through [getClientsAssignedToEmployee]. *)
Theorem associations_form_a_set (s : MemStorage) :
  reachable s ->
  (forall p q,
      In q (getClientServices (ClientService.clientId q)
                              (snd (addServiceToClient p s)))
      <-> q = p \/ In q (getClientServices (ClientService.clientId q) s))
  /\ (forall c sv q,
         let (found, s1) := removeServiceFromClient c sv s in
         (found = true
          <-> In (ClientService.mk c sv) (getClientServices c s))
         /\ (In q (getClientServices (ClientService.clientId q) s1)
             <-> q <> ClientService.mk c sv
                 /\ In q (getClientServices (ClientService.clientId q) s)))
  /\ (forall p e c,
         In c (getClientsAssignedToEmployee
                 e (snd (assignClientToEmployee p s)))
         <-> (e = EmployeeClient.employeeId p
              /\ c = EmployeeClient.clientId p)
             \/ In c (getClientsAssignedToEmployee e s))
  /\ (forall e0 c0 e c,
         let (found, s1) := unassignClientFromEmployee e0 c0 s in
         (found = true <-> In c0 (getClientsAssignedToEmployee e0 s))
         /\ (In c (getClientsAssignedToEmployee e s1)
             <-> ~ (e = e0 /\ c = c0)
                 /\ In c (getClientsAssignedToEmployee e s))).
Proof.
  intros Hreach. destruct (reachable_keyed s Hreach) as [Hcs Hec].
  repeat apply conj.
  - intros p q. rewrite !in_getClientServices.
    unfold addServiceToClient. cbn -[String.eqb].
    apply (keyed_values_set client_service_key client_service_key_inj).
    exact Hcs.
  - intros c sv q. unfold removeServiceFromClient, JsMap.delete.
    cbn -[String.eqb]. split.
    + rewrite (in_getClientServices (ClientService.mk c sv)).
      apply (keyed_has client_service_key client_service_key_inj
               _ (ClientService.mk c sv)).
      exact Hcs.
    + rewrite !in_getClientServices. cbn -[String.eqb].
      apply (keyed_values_remove client_service_key client_service_key_inj
               _ (ClientService.mk c sv)).
      exact Hcs.
  - intros p e c. rewrite !in_getClientsAssignedToEmployee.
    unfold assignClientToEmployee. cbn -[String.eqb].
    rewrite (keyed_values_set employee_client_key employee_client_key_inj
               _ p (EmployeeClient.mk e c) Hec).
    destruct p as [pe pc]. cbn. split.
    + intros [[= -> ->] | H]; [left; split; reflexivity | right; exact H].
    + intros [[-> ->] | H]; [left; reflexivity | right; exact H].
  - intros e0 c0 e c. unfold unassignClientFromEmployee, JsMap.delete.
    cbn -[String.eqb]. split.
    + rewrite in_getClientsAssignedToEmployee.
      apply (keyed_has employee_client_key employee_client_key_inj
               _ (EmployeeClient.mk e0 c0)).
      exact Hec.
    + rewrite !in_getClientsAssignedToEmployee. cbn -[String.eqb].
      rewrite (keyed_values_remove employee_client_key
                 employee_client_key_inj _ (EmployeeClient.mk e0 c0)
                 (EmployeeClient.mk e c) Hec).
      split.
      * intros [Hne H]. split; [|exact H].
        intros [-> ->]. apply Hne. reflexivity.
      * intros [Hne H]. split; [|exact H].
        intros [= -> ->]. apply Hne. split; reflexivity.
Qed.

(** ** Deleting a parent *)

(** What is left in a map after a removal was there before, under a key
    other than the removed one. *)
Lemma in_values_remove {V : Type} (k : Z) (v : V) (m : JsMap.t Z V) :
  NoDup (JsMap.keys m) ->
  In v (JsMap.values (JsMap.remove Z.eqb k m)) ->
  exists k', k' <> k /\ JsMap.get Z.eqb k' m = Some v.
Proof.
  intros Hnd Hin. destruct (in_values_entry _ _ Hin) as [k' Hk'].
  exists k'. split.
  - intros ->.
    pose proof (JsMapMore.get_remove_same Z.eqb Z.eqb_eq k m Hnd) as Hnone.
    apply get_none_iff in Hnone. apply Hnone.
    unfold JsMap.keys. change k with (fst (k, v)). apply in_map. exact Hk'.
  - apply (JsMapFacts.in_get_some Z.eqb Z.eqb_eq); [exact Hnd|].
    apply (JsMapFacts.in_remove Z.eqb _ k). exact Hk'.
Qed.

(** X9. No delete cascades.  Deleting a client leaves its projects, its
    follow-ups, its service associations and every employee's
    assignments listed as before; deleting a project leaves its
    documents and all follow-ups; deleting a service leaves every
    association to it; deleting an employee leaves the follow-ups
    assigned to it, its client assignments and every user.  What then
    refers to the deleted id dangles: in a store the server can reach,
    the joins [getServicesByClient] and [getClientsByEmployee] list,
    after the delete, only records they listed before and that are
    stored under another id. *)
Theorem delete_does_not_cascade (s : MemStorage) (k : Z) :
  (let s1 := snd (deleteClient k s) in
   getProjectsByClient k s1 = getProjectsByClient k s
   /\ getFollowUpsByClient k s1 = getFollowUpsByClient k s
   /\ getClientServices k s1 = getClientServices k s
   /\ forall e, getClientsAssignedToEmployee e s1
                = getClientsAssignedToEmployee e s)
  /\ (let s1 := snd (deleteProject k s) in
      getProjectDocuments k s1 = getProjectDocuments k s
      /\ getFollowUps s1 = getFollowUps s)
  /\ (let s1 := snd (deleteService k s) in
      forall c, getClientServices c s1 = getClientServices c s)
  /\ (let s1 := snd (deleteEmployee k s) in
      getFollowUpsByEmployee k s1 = getFollowUpsByEmployee k s
      /\ getClientsAssignedToEmployee k s1
         = getClientsAssignedToEmployee k s
      /\ userStore s1 = userStore s)
  /\ (reachable s ->
      (forall c service,
          In service (getServicesByClient c (snd (deleteService k s))) ->
          In service (getServicesByClient c s)
          /\ exists k', k' <> k /\ getService k' s = Some service)
      /\ (forall e client,
             In client (getClientsByEmployee e (snd (deleteClient k s))) ->
             In client (getClientsByEmployee e s)
             /\ exists k', k' <> k /\ getClient k' s = Some client)).
Proof.
  repeat apply conj; try reflexivity.
  intros Hreach.
  pose proof (reachable_ids_below_counter s Hreach) as Hinv.
  split.
  - intros c service. unfold getServicesByClient, deleteService, JsMap.delete.
      cbn -[Z.eqb]. rewrite !filter_In. intros [Hin Hlisted].
      destruct (in_values_remove k service _ (proj1 (Hinv EService)) Hin)
        as (k' & Hk' & Hget).
      split; [|exists k'; split; assumption].
      split; [|exact Hlisted].
      apply (JsMapFacts.get_some_in Z.eqb Z.eqb_eq) in Hget.
      unfold JsMap.values. change service with (snd (k', service)).
      apply in_map. exact Hget.
  - intros e client. unfold getClientsByEmployee, deleteClient, JsMap.delete.
      cbn -[Z.eqb]. rewrite !filter_In. intros [Hin Hlisted].
      destruct (in_values_remove k client _ (proj1 (Hinv EClient)) Hin)
        as (k' & Hk' & Hget).
      split; [|exists k'; split; assumption].
      split; [|exact Hlisted].
      apply (JsMapFacts.get_some_in Z.eqb Z.eqb_eq) in Hget.
      unfold JsMap.values. change client with (snd (k', client)).
      apply in_map. exact Hget.
Qed.

(** ** The dashboard's counters *)

Section DashboardCounters.
Variable Date_parse : string -> option Z.

Lemma overdue_le_pending (clock : nat -> Z) (reads : nat)
  (followUps : list FollowUp.t) :
  (List.length (overdue Date_parse clock reads followUps)
   <= pending_count followUps)%nat.
Proof.
  revert reads. unfold pending_count.
  induction followUps as [|f rest IH]; intros reads; [apply Nat.le_refl|].
  cbn [overdue filter].
  destruct (eq_string (FollowUp.status f) "Pending"); cbn [negb].
  - destruct (Date_lt _ _); cbn [List.length].
    + apply le_n_S. apply IH.
    + apply Nat.le_trans with (1 := IH (S reads)). apply Nat.le_succ_diag_r.
  - apply IH.
Qed.

(** X10. Whatever the clock does during the request, the counters of the
    dashboard agree with the store's own listings and with each other:
    [totalClients] is the number of clients, [activeProjects] the number
    of projects [getProjectsByStatus("In Progress")] lists,
    [pendingFollowUps] the number of follow-ups
    [getFollowUpsByStatus("Pending")] lists, and [overdueFollowUps]
    never exceeds [pendingFollowUps], which never exceeds the number of
    follow-ups. *)
Theorem dashboard_counters_agree (clock : nat -> Z) (s : MemStorage) :
  exists body,
    dashboard Date_parse clock s = Some body
    /\ totalClients body = List.length (getClients s)
    /\ activeProjects body
       = List.length (getProjectsByStatus "In Progress" s)
    /\ pendingFollowUps body
       = List.length (getFollowUpsByStatus "Pending" s)
    /\ (overdueFollowUps body <= pendingFollowUps body)%nat
    /\ (pendingFollowUps body <= List.length (getFollowUps s))%nat
    /\ (activeProjects body <= List.length (getProjects s))%nat.
Proof.
  eexists. split; [reflexivity|].
  cbn [totalClients activeProjects pendingFollowUps overdueFollowUps].
  repeat apply conj; try reflexivity.
  - apply overdue_le_pending.
  - apply filter_length_le.
  - apply filter_length_le.
Qed.



End DashboardCounters.

(** ** Routes *)

Lemma in_values_set_key {V : Type} (k : string) (v : V)
  (m : JsMap.t string V) :
  In v (JsMap.values (JsMap.set String.eqb k v m)).
Proof.
  unfold JsMap.values. change v with (snd (k, v)) at 1. apply in_map.
  apply (JsMapFacts.get_some_in String.eqb String.eqb_eq).
  apply (JsMapFacts.get_set_same String.eqb String.eqb_eq).
Qed.

(** X12. The two routes that create associations differ in what they
    check.  POST /api/clients/:clientId/services/:serviceId answers 201
    and stores the pair exactly when a client and a service are stored
    under the two ids; otherwise it answers 404 and leaves the store as
    it was.  POST /api/employees/:employeeId/clients/:clientId looks
    nothing up: for any two ids, whether or not an employee or a client
    is stored under them, it answers 201 and the client id is then
    listed among the employee's assignments.  Without an authenticated
    session both answer 401 and leave the store as it was. *)
Theorem association_routes (s : MemStorage) (a b : Z) :
  (let (reply, s1) := POST_api_clients_services true a b s in
   match getClient a s, getService b s with
   | Some _, Some _ =>
       reply = Sent 201 (ClientService.mk a b)
       /\ In (ClientService.mk a b) (getClientServices a s1)
   | _, _ =>
       reply = Refused 404 "Client or service not found" /\ s1 = s
   end)
  /\ (let (reply, s1) := POST_api_employees_clients true a b s in
      reply = Sent 201 (EmployeeClient.mk a b)
      /\ In b (getClientsAssignedToEmployee a s1))
  /\ POST_api_clients_services false a b s = (Refused 401 "Unauthorized", s)
  /\ POST_api_employees_clients false a b s
     = (Refused 401 "Unauthorized", s).
Proof.
  split; [|split; [|split; reflexivity]].
  - unfold POST_api_clients_services, isAuthenticated.
    destruct (getClient a s); [|cbn; split; reflexivity].
    destruct (getService b s); [|cbn; split; reflexivity].
    unfold addServiceToClient. cbn -[String.eqb].
    split; [reflexivity|].
    apply in_getClientServices with (q := ClientService.mk a b).
    cbn -[String.eqb]. apply in_values_set_key.
  - unfold POST_api_employees_clients, isAuthenticated,
      assignClientToEmployee. cbn -[String.eqb].
    split; [reflexivity|].
    apply in_getClientsAssignedToEmployee. cbn -[String.eqb].
    apply in_values_set_key.
Qed.

(** X13. DELETE /api/projects/:id.  With no project under the id it
    answers 404 and changes nothing.  Otherwise it answers 204; in a
    store the server can reach the project is then gone; its invoice
    file is handed to [unlink] exactly when [invoiceFile] is a non-empty
    string, and nothing else is; the documents of the project all stay
    in the store, and none of their files is unlinked. *)
Theorem delete_project_route (s : MemStorage) (unlinked : list string)
  (id : Z) :
  reachable s ->
  let (reply, state) := DELETE_api_projects true id (s, unlinked) in
  match getProject id s with
  | None =>
      reply = Refused 404 "Project not found" /\ state = (s, unlinked)
  | Some project =>
      reply = Ended 204
      /\ getProject id (fst state) = None
      /\ projectDocumentStore (fst state) = projectDocumentStore s
      /\ getProjectDocuments id (fst state) = getProjectDocuments id s
      /\ snd state
         = unlinked
           ++ match Project.invoiceFile project with
              | Some (notnull path) =>
                  if String.eqb path "" then [] else [path]
              | _ => []
              end
  end.
Proof.
  intros Hreach.
  pose proof (reachable_ids_below_counter s Hreach) as Hinv.
  unfold DELETE_api_projects, isAuthenticated.
  destruct (getProject id s) as [project|] eqn:Hget;
    [|cbn; split; reflexivity].
  unfold deleteProject, JsMap.delete. cbn -[Z.eqb String.eqb].
  repeat apply conj; try reflexivity.
  - apply (JsMapMore.get_remove_same Z.eqb Z.eqb_eq).
    exact (proj1 (Hinv EProject)).
  - unfold truthy_string.
    destruct (Project.invoiceFile project) as [[|path]|];
      try (rewrite app_nil_r; reflexivity).
    destruct (String.eqb path ""); [rewrite app_nil_r|]; reflexivity.
Qed.

(** X14. The DELETE routes of clients and of the two association tables,
    in a store the server can reach: the first request answers 204 when
    something was stored under the id (or pair) and 404 when nothing
    was, and a 404 has changed nothing; the same request again answers
    404 and changes nothing. *)
Theorem delete_routes_then_404 (s : MemStorage) (a b : Z) :
  reachable s ->
  (let (r1, s1) := DELETE_api_clients true a s in
   let (r2, s2) := DELETE_api_clients true a s1 in
   (reply_status r1 = 204 <-> getClient a s <> None)
   /\ (reply_status r1 = 404 <-> getClient a s = None)
   /\ (reply_status r1 = 404 -> s1 = s)
   /\ reply_status r2 = 404 /\ s2 = s1)
  /\ (let (r1, s1) := DELETE_api_clients_services true a b s in
      let (r2, s2) := DELETE_api_clients_services true a b s1 in
      (reply_status r1 = 204
       <-> In (ClientService.mk a b) (getClientServices a s))
      /\ (reply_status r1 = 404 -> s1 = s)
      /\ reply_status r2 = 404 /\ s2 = s1)
  /\ (let (r1, s1) := DELETE_api_employees_clients true a b s in
      let (r2, s2) := DELETE_api_employees_clients true a b s1 in
      (reply_status r1 = 204 <-> In b (getClientsAssignedToEmployee a s))
      /\ (reply_status r1 = 404 -> s1 = s)
      /\ reply_status r2 = 404 /\ s2 = s1).
Proof.
  intros Hreach.
  pose proof (reachable_ids_below_counter s Hreach) as Hinv.
  destruct (reachable_keyed s Hreach) as [Hcs Hec].
  pose proof (set_store_same s) as Hsame.
  repeat apply conj.
  - unfold DELETE_api_clients, isAuthenticated, deleteClient, JsMap.delete.
    cbn -[Z.eqb].
    pose proof (JsMapMore.has_true_iff Z.eqb a (clientStore s)) as Hiff.
    fold (getClient a s) in Hiff.
    destruct (JsMap.has Z.eqb a (clientStore s)) eqn:Hhas; cbn -[Z.eqb].
    + rewrite (JsMapMore.has_remove_same Z.eqb Z.eqb_eq)
        by exact (proj1 (Hinv EClient)).
      rewrite (JsMapMore.remove_twice Z.eqb Z.eqb_eq)
        by exact (proj1 (Hinv EClient)).
      cbn. repeat apply conj; try reflexivity; try discriminate.
      * intros _. apply Hiff. reflexivity.
      * intros H. exfalso. apply (proj1 Hiff eq_refl). exact H.
    + rewrite (JsMapMore.has_false_remove Z.eqb _ _ Hhas).
      rewrite (proj1 Hsame). rewrite Hhas.
      rewrite (JsMapMore.has_false_remove Z.eqb _ _ Hhas).
      rewrite (proj1 Hsame). cbn.
      repeat apply conj; try reflexivity; try discriminate.
      * intros H. apply Hiff in H. discriminate.
      * intros _. destruct (getClient a s); [|reflexivity].
        assert (false = true) by (apply Hiff; discriminate).
        discriminate.
  - unfold DELETE_api_clients_services, isAuthenticated,
      removeServiceFromClient, JsMap.delete.
    cbn -[String.eqb].
    pose proof (keyed_has client_service_key client_service_key_inj
                  _ (ClientService.mk a b) Hcs) as Hiff.
    rewrite <- (in_getClientServices (ClientService.mk a b)) in Hiff.
    change (client_service_key (ClientService.mk a b))
      with (pair_key a b) in Hiff.
    cbn [ClientService.clientId] in Hiff.
    destruct (JsMap.has String.eqb (pair_key a b) (clientServiceStore s))
      eqn:Hhas; cbn -[String.eqb].
    + rewrite (JsMapMore.has_remove_same String.eqb String.eqb_eq)
        by apply Hcs.
      rewrite (JsMapMore.remove_twice String.eqb String.eqb_eq)
        by apply Hcs.
      cbn. repeat apply conj; try reflexivity; try discriminate.
      intros _. apply Hiff. reflexivity.
    + rewrite (JsMapMore.has_false_remove String.eqb _ _ Hhas).
      rewrite (proj1 (proj2 (proj2 (proj2 (proj2 (proj2 (proj2 (proj2
                 Hsame)))))))).
      rewrite Hhas.
      rewrite (JsMapMore.has_false_remove String.eqb _ _ Hhas).
      rewrite (proj1 (proj2 (proj2 (proj2 (proj2 (proj2 (proj2 (proj2
                 Hsame)))))))).
      cbn. repeat apply conj; try reflexivity; try discriminate.
      intros H. apply Hiff in H. discriminate.
  - unfold DELETE_api_employees_clients, isAuthenticated,
      unassignClientFromEmployee, JsMap.delete.
    cbn -[String.eqb].
    pose proof (keyed_has employee_client_key employee_client_key_inj
                  _ (EmployeeClient.mk a b) Hec) as Hiff.
    rewrite <- in_getClientsAssignedToEmployee in Hiff.
    change (employee_client_key (EmployeeClient.mk a b))
      with (pair_key a b) in Hiff.
    destruct (JsMap.has String.eqb (pair_key a b) (employeeClientStore s))
      eqn:Hhas; cbn -[String.eqb].
    + rewrite (JsMapMore.has_remove_same String.eqb String.eqb_eq)
        by apply Hec.
      rewrite (JsMapMore.remove_twice String.eqb String.eqb_eq)
        by apply Hec.
      cbn. repeat apply conj; try reflexivity; try discriminate.
      intros _. apply Hiff. reflexivity.
    + rewrite (JsMapMore.has_false_remove String.eqb _ _ Hhas).
      rewrite (proj2 (proj2 (proj2 (proj2 (proj2 (proj2 (proj2 (proj2
                 Hsame)))))))).
      rewrite Hhas.
      rewrite (JsMapMore.has_false_remove String.eqb _ _ Hhas).
      rewrite (proj2 (proj2 (proj2 (proj2 (proj2 (proj2 (proj2 (proj2
                 Hsame)))))))).
      cbn. repeat apply conj; try reflexivity; try discriminate.
      intros H. apply Hiff in H. discriminate.
Qed.

Section QueryFilters.
Variable parseInt : string -> option Z.

Lemma query_string_blank (x : option string) :
  blank x -> query_string x = None.
Proof. intros [-> | ->]; reflexivity. Qed.

Lemma query_number_blank (x : option string) :
  blank x -> query_number parseInt x = None.
Proof. intros [-> | ->]; reflexivity. Qed.

Lemma query_number_parses (x : option string) (n : option Z) :
  parses_to parseInt x n -> query_number parseInt x = Some n.
Proof.
  intros (text & -> & Htext & <-). unfold query_number.
  destruct (String.eqb text "") eqn:E; [|reflexivity].
  apply String.eqb_eq in E. contradiction.
Qed.

(** A number that is absent, NaN or 0 is falsy. *)
Lemma truthy_number_none (x : option string) :
  blank x \/ parses_to parseInt x None \/ parses_to parseInt x (Some 0) ->
  truthy_number (query_number parseInt x) = None.
Proof.
  intros [H | [H | H]].
  - rewrite (query_number_blank x H). reflexivity.
  - rewrite (query_number_parses x _ H). reflexivity.
  - rewrite (query_number_parses x _ H). reflexivity.
Qed.

Lemma truthy_number_some (x : option string) (k : Z) :
  parses_to parseInt x (Some k) -> k <> 0 ->
  truthy_number (query_number parseInt x) = Some k.
Proof.
  intros H Hk. rewrite (query_number_parses x _ H). unfold truthy_number.
  destruct (Z.eqb k 0) eqn:E; [|reflexivity].
  apply Z.eqb_eq in E. contradiction.
Qed.

(** X15. GET /api/projects and GET /api/followups apply at most one
    filter, in a fixed order of precedence, always answer 200 and leave
    the store as it was.  A non-empty [status] wins: the reply is the
    listing by that status, whatever the other parameters say.  With
    [status] absent or empty, a [clientId] that [parseInt] reads as a
    number other than 0 gives that client's records.  A [clientId] that
    is absent or empty, or that reads as 0 or as NaN, filters nothing:
    projects are then all listed, and follow-ups are filtered by
    [employeeId] under the same rule, or all listed. *)
Theorem query_filter_precedence (s : MemStorage)
  (status clientId employeeId : option string) :
  (forall wanted, status = Some wanted -> wanted <> "" ->
     GET_api_projects parseInt true status clientId s
     = (Sent 200 (getProjectsByStatus wanted s), s)
     /\ GET_api_followups parseInt true status clientId employeeId s
        = (Sent 200 (getFollowUpsByStatus wanted s), s))
  /\ (forall k, blank status ->
        parses_to parseInt clientId (Some k) -> k <> 0 ->
        GET_api_projects parseInt true status clientId s
        = (Sent 200 (getProjectsByClient k s), s)
        /\ GET_api_followups parseInt true status clientId employeeId s
           = (Sent 200 (getFollowUpsByClient k s), s))
  /\ (blank status ->
      blank clientId \/ parses_to parseInt clientId None
      \/ parses_to parseInt clientId (Some 0) ->
      GET_api_projects parseInt true status clientId s
      = (Sent 200 (getProjects s), s)
      /\ (forall k, parses_to parseInt employeeId (Some k) -> k <> 0 ->
                    GET_api_followups parseInt true status clientId
                                      employeeId s
                    = (Sent 200 (getFollowUpsByEmployee k s), s))
      /\ (blank employeeId \/ parses_to parseInt employeeId None
          \/ parses_to parseInt employeeId (Some 0) ->
          GET_api_followups parseInt true status clientId employeeId s
          = (Sent 200 (getFollowUps s), s))).
Proof.
  unfold GET_api_projects, GET_api_followups, isAuthenticated.
  split; [|split].
  - intros wanted -> Hwanted. unfold query_string.
    destruct (String.eqb wanted "") eqn:E;
      [apply String.eqb_eq in E; contradiction|].
    split; reflexivity.
  - intros k Hstatus Hclient Hk.
    rewrite (query_string_blank _ Hstatus).
    rewrite (truthy_number_some _ k Hclient Hk). split; reflexivity.
  - intros Hstatus Hclient.
    rewrite (query_string_blank _ Hstatus).
    rewrite (truthy_number_none _ Hclient).
    split; [reflexivity|]. split.
    + intros k He Hk. rewrite (truthy_number_some _ k He Hk). reflexivity.
    + intros He. rewrite (truthy_number_none _ He). reflexivity.
Qed.
End QueryFilters.

(** ** The dashboard after a create *)

Section DashboardSteps.
Variable Date_parse : string -> option Z.

Lemma fold_add_price_snoc (projects : list Project.t) (p : Project.t)
  (sum : float) :
  fold_left add_price (projects ++ [p]) sum
  = add_price (fold_left add_price projects sum) p.
Proof. rewrite fold_left_app. reflexivity. Qed.

(** X16. In every store the server can reach, creating a project moves
    the dashboard as follows: [totalRevenue] becomes the old total plus
    the new project's price (in floating point, the new price added
    last; an absent price adds NaN); [activeProjects] goes up by one if
    the project is created with status "In Progress" and stays
    otherwise; the client and follow-up counters stay. *)
Theorem dashboard_after_create_project (clock : nat -> Z) (s : MemStorage)
  (project : Project.t) :
  reachable s ->
  exists before after,
    dashboard Date_parse clock s = Some before
    /\ dashboard Date_parse clock (snd (createProject project s))
       = Some after
    /\ totalRevenue after
       = PrimFloat.add (totalRevenue before)
                       (price_number (Project.price project))
    /\ activeProjects after
       = (if eq_string (Project.status project) "In Progress"
          then S (activeProjects before) else activeProjects before)
    /\ totalClients after = totalClients before
    /\ pendingFollowUps after = pendingFollowUps before
    /\ overdueFollowUps after = overdueFollowUps before.
Proof.
  intros Hreach.
  pose proof (reachable_ids_below_counter s Hreach) as Hinv.
  pose proof (counter_not_a_key s EProject Hinv) as Hfresh.
  apply get_none_iff in Hfresh. cbn in Hfresh.
  eexists. eexists. split; [reflexivity|]. split; [reflexivity|].
  cbn [totalRevenue activeProjects totalClients pendingFollowUps
       overdueFollowUps].
  unfold getProjects, createProject. cbn -[Z.eqb].
  rewrite (JsMapMore.values_set_fresh Z.eqb _ _ _ Hfresh).
  repeat apply conj; try reflexivity.
  - rewrite fold_add_price_snoc. reflexivity.
  - rewrite filter_app, length_app. cbn [filter].
    change (Project.status (Project.with_id project (projectId s)))
      with (Project.status project).
    destruct (eq_string (Project.status project) "In Progress");
      cbn [List.length]; lia.
Qed.
End DashboardSteps.

(** ** The joins *)

Lemma includes_iff (ids : list Z) (x : option Z) :
  includes ids x = true <-> exists i, x = Some i /\ In i ids.
Proof.
  unfold includes. rewrite existsb_exists. split.
  - intros [i [Hin Heq]]. unfold eq_Z in Heq.
    destruct x as [n|]; [|discriminate].
    apply Z.eqb_eq in Heq. subst n. exists i. split; [reflexivity | exact Hin].
  - intros [i [-> Hin]]. exists i. split; [exact Hin|].
    cbn. apply Z.eqb_refl.
Qed.

(** X17. The two joins follow the [id] property of the records.  A
    service is listed by [getServicesByClient(c)] exactly when it is in
    [getServices()] and its [id] property is the service id of an
    association that [getClientServices(c)] lists; a client is listed by
    [getClientsByEmployee(e)] exactly when it is in [getClients()] and
    its [id] property is among [getClientsAssignedToEmployee(e)].  An
    association whose id matches no record's [id] contributes nothing. *)
Theorem joins_follow_id_property (s : MemStorage) (a : Z) :
  (forall service,
      In service (getServicesByClient a s)
      <-> In service (getServices s)
          /\ exists i, Service.id service = Some i
                       /\ In (ClientService.mk a i) (getClientServices a s))
  /\ (forall client,
         In client (getClientsByEmployee a s)
         <-> In client (getClients s)
             /\ exists i, Client.id client = Some i
                          /\ In i (getClientsAssignedToEmployee a s)).
Proof.
  split.
  - intros service. unfold getServicesByClient, getServices.
    rewrite filter_In, includes_iff.
    fold (getClientServices a s).
    assert (Hids : forall i,
               In i (map ClientService.serviceId (getClientServices a s))
               <-> In (ClientService.mk a i) (getClientServices a s)).
    { intros i. rewrite in_map_iff. split.
      - intros [[c sv] [Hsv Hin]]. cbn in Hsv. subst sv.
        pose proof Hin as Hin'. unfold getClientServices in Hin'.
        apply filter_In in Hin'. destruct Hin' as [_ Hc]. cbn in Hc.
        apply Z.eqb_eq in Hc. subst c. exact Hin.
      - intros Hin. exists (ClientService.mk a i). split; [reflexivity|].
        exact Hin. }
    split.
    + intros [Hin [i [Hid Hi]]]. split; [exact Hin|].
      exists i. split; [exact Hid | apply Hids; exact Hi].
    + intros [Hin [i [Hid Hi]]]. split; [exact Hin|].
      exists i. split; [exact Hid | apply Hids; exact Hi].
  - intros client. unfold getClientsByEmployee, getClients.
    rewrite filter_In, includes_iff.
    fold (getClientsAssignedToEmployee a s). reflexivity.
Qed.

(** ** Worked instances of the further properties *)

Lemma reachable_store_with_acme : reachable store_with_acme.
Proof. apply reachable_exec. apply reachable_new. Defined.

Lemma reachable_store_with_project : reachable store_with_project.
Proof. apply reachable_exec. apply reachable_new. Defined.

Lemma delete_twice_witness :
  delete_contract getClient deleteClient store_with_acme 1.
Proof.
  exact (proj1 (delete_twice store_with_acme 1 reachable_store_with_acme)).
Defined.

Lemma create_appends_witness :
  create_contract getClients getClient createClient store_with_acme
                  rename_acme.
Proof.
  exact (proj1 (proj2 (create_appends store_with_acme
                         reachable_store_with_acme)) rename_acme).
Defined.

Lemma listings_in_id_order_witness :
  StronglySorted Z.lt (keys_of EClient store_with_acme).
Proof.
  exact (listings_in_id_order store_with_acme EClient
           reachable_store_with_acme).
Defined.


Lemma users_are_permanent_witness :
  getUserByUsername "admin" store_with_acme
  = Some (User.with_id seed_user 1).
Proof.
  exact (proj1 (proj2 (users_are_permanent store_with_acme
                         reachable_store_with_acme))).
Defined.

Lemma duplicate_username_is_shadowed_witness :
  let s1 := snd (createUser second_admin new_MemStorage) in
  getUser 2 s1 = Some (User.with_id second_admin 2)
  /\ getUserByUsername "admin" s1 = Some (User.with_id seed_user 1).
Proof.
  intros s1.
  pose proof (duplicate_username_is_shadowed new_MemStorage "admin"
                (User.with_id seed_user 1) second_admin reachable_new
                eq_refl eq_refl) as H.
  change (createUser second_admin new_MemStorage)
    with (User.with_id second_admin 2, s1) in H.
  destruct H as (_ & _ & _ & _ & _ & H).
  split; [reflexivity | exact H].
Defined.

Lemma pair_key_reads_back_witness :
  split_key (pair_key 12 (-3)) = Some ("12", "-3") /\ (12 = 12 /\ -3 = -3).
Proof.
  assert (H12 : safe_integer 12) by (split; reflexivity).
  assert (H3 : safe_integer (-3)) by (split; reflexivity).
  destruct (pair_key_reads_back 12 (-3) H12 H3) as [H1 H2].
  split; [exact H1 | exact (H2 12 (-3) H12 H3 eq_refl)].
Defined.

Lemma associations_form_a_set_witness :
  In (ClientService.mk 1 1)
     (getClientServices 1
        (snd (addServiceToClient (ClientService.mk 1 1) new_MemStorage))).
Proof.
  exact (proj2 (proj1 (associations_form_a_set new_MemStorage reachable_new)
                  (ClientService.mk 1 1) (ClientService.mk 1 1))
               (or_introl eq_refl)).
Defined.

Lemma delete_does_not_cascade_witness :
  getProjectsByClient 1 (snd (deleteClient 1 store_with_acme))
  = getProjectsByClient 1 store_with_acme
  /\ forall e client,
       In client (getClientsByEmployee
                    e (snd (deleteClient 1 store_with_acme))) ->
       In client (getClientsByEmployee e store_with_acme)
       /\ exists k', k' <> 1 /\ getClient k' store_with_acme = Some client.
Proof.
  destruct (delete_does_not_cascade store_with_acme 1)
    as (H1 & _ & _ & _ & H5).
  split; [exact (proj1 H1)|].
  exact (proj2 (H5 reachable_store_with_acme)).
Defined.


Lemma delete_project_route_witness :
  DELETE_api_projects true 1 (store_with_project, [])
  = (Ended 204,
     (snd (deleteProject 1 store_with_project), ["uploads/invoice_1.pdf"])).
Proof.
  pose proof (delete_project_route store_with_project [] 1
                reachable_store_with_project) as H.
  destruct (DELETE_api_projects true 1 (store_with_project, []))
    as [reply [s1 unlinked]] eqn:E.
  change (getProject 1 store_with_project)
    with (Some (Project.mk (Some 1) (Some 1) (Some "Website")
                  (Some "2024-01-15") None None
                  (Some (notnull "uploads/invoice_1.pdf"))
                  (Some 300%float) (Some 500%float) None None)) in H.
  destruct H as (H1 & _ & _ & _ & H5).
  cbn in H5. subst reply unlinked.
  injection E as E. rewrite <- E. reflexivity.
Defined.

Lemma delete_routes_then_404_witness :
  reply_status (fst (DELETE_api_clients true 1 store_with_acme)) = 204
  /\ reply_status
       (fst (DELETE_api_clients
               true 1 (snd (DELETE_api_clients true 1 store_with_acme))))
     = 404.
Proof.
  pose proof (proj1 (delete_routes_then_404 store_with_acme 1 1
                       reachable_store_with_acme)) as H.
  hnf in H. destruct H as (H1 & _ & _ & H4 & _).
  split; [|exact H4].
  apply H1. discriminate.
Defined.

Lemma query_filter_precedence_witness :
  GET_api_projects (fun _ => Some 0) true None (Some "0") store_with_project
  = (Sent 200 (getProjects store_with_project), store_with_project).
Proof.
  apply (proj2 (proj2 (query_filter_precedence (fun _ => Some 0)
                         store_with_project None (Some "0") None))).
  - left. reflexivity.
  - right. right. exists "0". repeat split. discriminate.
Defined.

Lemma dashboard_after_create_project_witness :
  exists before after,
    dashboard (fun _ => None) (fun _ => 0) store_with_acme = Some before
    /\ dashboard (fun _ => None) (fun _ => 0)
                 (snd (createProject project_500 store_with_acme))
       = Some after
    /\ totalRevenue after
       = PrimFloat.add (totalRevenue before) 500%float
    /\ activeProjects after = activeProjects before.
Proof.
  destruct (dashboard_after_create_project (fun _ => None) (fun _ => 0)
              store_with_acme project_500 reachable_store_with_acme)
    as (before & after & H1 & H2 & H3 & H4 & _).
  exists before, after. repeat split; assumption.
Defined.
